(** * Guide Creator Flow: a shallow embedding of [main.py] and [server.py]

    The flow collects a topic and an audience level, asks a language model
    for a JSON outline, has a crew write every section with the earlier
    sections as context, and assembles one markdown document.

    Python strings are [string]; dictionaries ([sections_content], the
    crew's [inputs], parsed JSON objects) are [gmap string _]; exceptions
    are the [Raise] branch of [result].  What the process does to the
    outside world is recorded as a list of [event]s, and what the outside
    world answers is taken from the [External] interface. *)

From Stdlib Require Import ZArith Floats.SpecFloat DecimalString Ascii String.
From stdpp Require Import base strings list gmap.

Module Main.

(** ** Text *)

Definition LF : string := String (ascii_of_nat 10) EmptyString.
Definition LF2 : string := LF +:+ LF.
Definition DQUOTE : string := String (ascii_of_nat 34) EmptyString.

(** [str.lower()].  On the letters [A]..[Z] it adds 32 to the code; the
    three words the collector compares against are ASCII, and no non-ASCII
    code point lower-cases to one of their letters, so the bytes above 127
    are left as they are. *)
Definition lower_ascii (c : ascii) : ascii :=
  let n := nat_of_ascii c in
  if (65 <=? n) && (n <=? 90) then ascii_of_nat (n + 32) else c.

Fixpoint lower (s : string) : string :=
  match s with
  | EmptyString => EmptyString
  | String c s' => String (lower_ascii c) (lower s')
  end.

(** [str(n)] for a length. *)
Definition str_of_nat (n : nat) : string := NilZero.string_of_uint (Nat.to_uint n).

(** ** Values returned by [json.loads] *)

#[warnings="-register-all"]
Inductive json :=
| JNull
| JBool (b : bool)
| JInt (z : Z)
| JFloat (f : spec_float)
| JStr (s : string)
| JArr (items : list json)
| JObj (members : gmap string json).

(** ** The pydantic models *)

Record Section_ := mkSection {
  Section_title : string;
  Section_description : string
}.

Record GuideOutline := mkGuideOutline {
  title : string;
  introduction : string;
  target_audience : string;
  sections : list Section_;
  conclusion : string
}.

Record GuideCreatorState := mkState {
  topic : string;
  audience_level : string;
  guide_outline : option GuideOutline;
  sections_content : gmap string string
}.

(** A fresh [GuideCreatorState()]: the class defaults. *)
Definition initial_state : GuideCreatorState :=
  {| topic := ""; audience_level := ""; guide_outline := None; sections_content := ∅ |}.

(** ** Exceptions and results *)

Inductive exn :=
| EOFError                       (* input() at the end of stdin *)
| JSONDecodeError                (* json.loads *)
| TypeError                      (* ** applied to something that is no mapping *)
| ValidationError                (* pydantic *)
| LLMCallError (message : string)   (* raised inside llm.call *)
| CrewError (message : string)      (* raised inside ContentCrew().crew().kickoff *)
| FileError (message : string).     (* raised by os.makedirs, open or write *)

Inductive result (A : Type) :=
| Ok (a : A)
| Raise (e : exn).
Arguments Ok {A} a.
Arguments Raise {A} e.

(** What an external capability answers: a value, or a failure with its
    message. *)
Inductive outcome (A : Type) :=
| Returns (a : A)
| Fails (message : string).
Arguments Returns {A} a.
Arguments Fails {A} message.

Definition lift_outcome {A} (wrap : string → exn) (o : outcome A) : result A :=
  match o with
  | Returns a => Ok a
  | Fails m => Raise (wrap m)
  end.

Record message := mkMessage { role : string; content : string }.

(** ** The outside world

    [Env] is the state of everything outside the process (the model
    provider, the crew's agents, the disk).  The four capabilities may
    answer differently on every call, so each takes and returns it.
    [json_loads] and [json_dumps] are the [json] module's functions
    ([json_dumps d n] is the text [json.dump(d, f, indent=n)] writes). *)
Class External := {
  Env : Type;
  llm_call : string → list message → Env → outcome string * Env;
  crew_kickoff : gmap string string → Env → outcome string * Env;
  os_makedirs : string → Env → outcome unit * Env;
  write_file : string → string → Env → outcome unit * Env;
  json_loads : string → option json;
  json_dumps : json → nat → string
}.

(** ** Events: the calls the process makes, with what came back *)

Inductive event :=
| EPrint (text : string)
| EInput (prompt : string) (line : result string)
| ELLMCall (model : string) (messages : list message) (r : result string)
| EKickoff (inputs : gmap string string) (r : result string)
| EMakedirs (path : string) (r : result unit)
| EWrite (path : string) (text : string) (r : result unit)
| EContentCrew (r : outcome unit)          (* server.py: ContentCrew() *)
| EAddTask (outline : GuideOutline).       (* server.py: background_tasks.add_task *)

Section Monad.
Context `{X : External}.

(** The flow object and its surroundings: [self.state], the lines still
    unread on stdin, and the outside world. *)
Record World := mkWorld {
  self_state : GuideCreatorState;
  stdin : list string;
  env : Env
}.

(** A step of the flow: it may change the world, it emits events, and it
    returns or raises.  What was done before an exception stays done. *)
Definition M (A : Type) : Type := World → result A * World * list event.

Definition ret {A} (a : A) : M A := fun w => (Ok a, w, []).

Definition bind {A B} (m : M A) (k : A → M B) : M B :=
  fun w =>
    match m w with
    | (Ok a, w1, evs1) =>
        match k a w1 with
        | (r, w2, evs2) => (r, w2, evs1 ++ evs2)
        end
    | (Raise e, w1, evs1) => (Raise e, w1, evs1)
    end.

Definition get_state : M GuideCreatorState := fun w => (Ok (self_state w), w, []).

Definition modify_state (f : GuideCreatorState → GuideCreatorState) : M unit :=
  fun w => (Ok tt, mkWorld (f (self_state w)) (stdin w) (env w), []).

(** One call of an external capability: the world moves on, the call and
    its answer are recorded. *)
Definition call {A} (f : Env → outcome A * Env) (wrap : string → exn)
    (record : result A → event) : M A :=
  fun w =>
    match f (env w) with
    | (o, env') =>
        let r := lift_outcome wrap o in
        (r, mkWorld (self_state w) (stdin w) env', [record r])
    end.

Definition print (text : string) : M unit := fun w => (Ok tt, w, [EPrint text]).

(** [input(prompt)]: the next line of stdin, [EOFError] when there is none. *)
Definition input (prompt : string) : M string :=
  fun w =>
    match stdin w with
    | [] => (Raise EOFError, w, [EInput prompt (Raise EOFError)])
    | line :: rest =>
        (Ok line, mkWorld (self_state w) rest (env w), [EInput prompt (Ok line)])
    end.

End Monad.

Declare Scope flow_scope.
Delimit Scope flow_scope with flow.
Notation "x <- m ;; k" := (bind m (fun x => k))
  (at level 100, m at next level, right associativity) : flow_scope.
Notation "m ;; k" := (bind m (fun _ => k))
  (at level 100, right associativity) : flow_scope.

(** ** Field assignments on [self.state] *)

Definition set_topic (v : string) (s : GuideCreatorState) : GuideCreatorState :=
  mkState v (audience_level s) (guide_outline s) (sections_content s).

Definition set_audience_level (v : string) (s : GuideCreatorState) : GuideCreatorState :=
  mkState (topic s) v (guide_outline s) (sections_content s).

Definition set_guide_outline (v : GuideOutline) (s : GuideCreatorState) : GuideCreatorState :=
  mkState (topic s) (audience_level s) (Some v) (sections_content s).

(** [self.state.sections_content[key] = v] *)
Definition set_section_content (key v : string) (s : GuideCreatorState) : GuideCreatorState :=
  mkState (topic s) (audience_level s) (guide_outline s) (<[key := v]> (sections_content s)).

(** ** Validation of a parsed JSON value against the pydantic models

    A [str] field takes a JSON string and nothing else; a [List[Section]]
    field takes a JSON array whose every element validates as a [Section];
    a model takes an object that has every declared field (none has a
    default) and ignores the other members. *)

Definition validate_str (v : json) : option string :=
  match v with
  | JStr s => Some s
  | _ => None
  end.

Definition Section_validate (v : json) : option Section_ :=
  match v with
  | JObj d =>
      t ← d !! "title" ≫= validate_str;
      desc ← d !! "description" ≫= validate_str;
      Some (mkSection t desc)
  | _ => None
  end.

Definition validate_sections (v : json) : option (list Section_) :=
  match v with
  | JArr items => mapM Section_validate items
  | _ => None
  end.

Definition GuideOutline_validate (d : gmap string json) : option GuideOutline :=
  t ← d !! "title" ≫= validate_str;
  i ← d !! "introduction" ≫= validate_str;
  a ← d !! "target_audience" ≫= validate_str;
  ss ← d !! "sections" ≫= validate_sections;
  c ← d !! "conclusion" ≫= validate_str;
  Some (mkGuideOutline t i a ss c).

(** The constructor call on the unpacked [outline_dict] (line 145). *)
Definition GuideOutline_init (outline_dict : json) : result GuideOutline :=
  match outline_dict with
  | JObj d =>
      match GuideOutline_validate d with
      | Some outline => Ok outline
      | None => Raise ValidationError
      end
  | _ => Raise TypeError
  end.

(** The dictionary of a model's fields, as [model_dump()] gives it. *)
Definition Section_dump (s : Section_) : json :=
  JObj {[ "title" := JStr (Section_title s);
          "description" := JStr (Section_description s) ]}.

Definition GuideOutline_dump (o : GuideOutline) : json :=
  JObj {[ "title" := JStr (title o);
          "introduction" := JStr (introduction o);
          "target_audience" := JStr (target_audience o);
          "sections" := JArr (map Section_dump (sections o));
          "conclusion" := JStr (conclusion o) ]}.

(** ** The three steps of [GuideCreatorFlow] *)

Section Flow.
Context `{X : External}.
Local Open Scope flow_scope.

Definition audience_prompt : string :=
  "Who is your target audience? (beginner/intermediate/advanced) ".

Definition audience_levels : list string := ["beginner"; "intermediate"; "advanced"].

(** The [while True] loop of [get_user_input], by recursion on the lines
    stdin still holds: an accepted answer is stored and ends the loop, any
    other answer is followed by the hint and the next [input]. *)
Fixpoint audience_loop (lines : list string) (w : World) : result unit * World * list event :=
  match lines with
  | [] => (Raise EOFError, mkWorld (self_state w) [] (env w),
           [EInput audience_prompt (Raise EOFError)])
  | line :: rest =>
      let audience := lower line in
      if bool_decide (audience ∈ audience_levels) then
        (Ok tt, mkWorld (set_audience_level audience (self_state w)) rest (env w),
         [EInput audience_prompt (Ok line)])
      else
        match audience_loop rest w with
        | (r, w', evs) =>
            (r, w', EInput audience_prompt (Ok line)
                      :: EPrint "Please enter 'beginner', 'intermediate', or 'advanced'"
                      :: evs)
        end
  end.

Definition ask_audience : M unit := fun w => audience_loop (stdin w) w.

Definition get_user_input : M GuideCreatorState :=
  print (LF +:+ "=== Create Your Comprehensive Guide ===" +:+ LF) ;;
  t <- input "What topic would you like to create a guide for? " ;;
  modify_state (set_topic t) ;;
  ask_audience ;;
  st <- get_state ;;
  print (LF +:+ "Creating a guide on " +:+ topic st +:+ " for " +:+ audience_level st
           +:+ " audience..." +:+ LF) ;;
  ret st.

Definition indent12 : string := "            ".

(** The user message of the outline request; the only place the count of
    sections is mentioned. *)
Definition outline_prompt (state : GuideCreatorState) : string :=
  LF +:+ indent12 +:+ "Create a detailed outline for a comprehensive guide on " +:+ DQUOTE
     +:+ topic state +:+ DQUOTE +:+ " for " +:+ audience_level state +:+ " level learners." +:+ LF
     +:+ LF
     +:+ indent12 +:+ "The outline should include:" +:+ LF
     +:+ indent12 +:+ "1. A compelling title for the guide" +:+ LF
     +:+ indent12 +:+ "2. An introduction to the topic" +:+ LF
     +:+ indent12 +:+ "3. 4-6 main sections that cover the most important aspects of the topic" +:+ LF
     +:+ indent12 +:+ "4. A conclusion or summary" +:+ LF
     +:+ LF
     +:+ indent12 +:+ "For each section, provide a clear title and a brief description of what it should cover." +:+ LF
     +:+ indent12.

Definition outline_messages (state : GuideCreatorState) : list message :=
  [ mkMessage "system" "You are a helpful assistant designed to output JSON.";
    mkMessage "user" (outline_prompt state) ].

Definition outline_path : string := "output/guide_outline.json".
Definition guide_path : string := "output/complete_guide.md".

(** [json.loads(response)] followed by the constructor call: lines 144-145. *)
Definition parse_outline (response : string) : result (json * GuideOutline) :=
  match json_loads response with
  | None => Raise JSONDecodeError
  | Some outline_dict =>
      match GuideOutline_init outline_dict with
      | Ok outline => Ok (outline_dict, outline)
      | Raise e => Raise e
      end
  end.

Definition create_guide_outline (state : GuideCreatorState) : M GuideOutline :=
  print "Creating guide outline..." ;;
  let model := "openai/gpt-4o-mini" in
  let messages := outline_messages state in
  response <- call (llm_call model messages) LLMCallError (ELLMCall model messages) ;;
  parsed <- (fun w => (parse_outline response, w, [])) ;;
  let outline_dict := fst parsed in
  let outline := snd parsed in
  modify_state (set_guide_outline outline) ;;
  call (os_makedirs "output") FileError (EMakedirs "output") ;;
  let text := json_dumps outline_dict 2 in
  call (write_file outline_path text) FileError (EWrite outline_path text) ;;
  (* self.state.guide_outline is the object assigned above *)
  print ("Guide outline created with " +:+ str_of_nat (length (sections outline))
           +:+ " sections") ;;
  ret outline.

(** The [inputs] dictionary of one crew run. *)
Definition kickoff_inputs (section : Section_) (audience previous_sections_text : string)
    : gmap string string :=
  {[ "section_title" := Section_title section;
     "section_description" := Section_description section;
     "audience_level" := audience;
     "previous_sections" := previous_sections_text;
     "draft_content" := "" ]}.

(** Lines 183-191: the context built from the sections completed so far. *)
Definition previous_sections_text (completed_sections : list string)
    (content : gmap string string) : string :=
  match completed_sections with
  | [] => "No previous sections written yet."
  | _ =>
      foldl
        (fun text title =>
           (text +:+ ("## " +:+ title +:+ LF2)) +:+ (default "" (content !! title) +:+ LF2))
        ("# Previously Written Sections" +:+ LF2)
        completed_sections
  end.

(** One turn of the loop over [outline.sections] (lines 180-205); the
    result is [completed_sections] after the [append]. *)
Definition process_section (section : Section_) (completed_sections : list string)
    : M (list string) :=
  print ("Processing section: " +:+ Section_title section) ;;
  st <- get_state ;;
  let inputs :=
    kickoff_inputs section (audience_level st)
      (previous_sections_text completed_sections (sections_content st)) in
  raw <- call (crew_kickoff inputs) CrewError (EKickoff inputs) ;;
  modify_state (set_section_content (Section_title section) raw) ;;
  print ("Section completed: " +:+ Section_title section) ;;
  ret (completed_sections ++ [Section_title section]).

Fixpoint write_sections (todo : list Section_) (completed_sections : list string)
    : M (list string) :=
  match todo with
  | [] => ret completed_sections
  | section :: rest =>
      completed_sections' <- process_section section completed_sections ;;
      write_sections rest completed_sections'
  end.

(** Lines 208-218: the document, from the outline and the stored contents. *)
Definition compile_guide (outline : GuideOutline) (content : gmap string string) : string :=
  let guide_content := "# " +:+ title outline +:+ LF2 in
  let guide_content :=
    guide_content +:+ ("## Introduction" +:+ LF2 +:+ introduction outline +:+ LF2) in
  let guide_content :=
    foldl
      (fun text section =>
         text +:+ (LF2 +:+ default "" (content !! Section_title section) +:+ LF2))
      guide_content (sections outline) in
  guide_content +:+ ("## Conclusion" +:+ LF2 +:+ conclusion outline +:+ LF2).

Definition write_and_compile_guide (outline : GuideOutline) : M string :=
  print "Writing guide sections and compiling..." ;;
  write_sections (sections outline) [] ;;
  st <- get_state ;;
  let guide_content := compile_guide outline (sections_content st) in
  call (write_file guide_path guide_content) FileError (EWrite guide_path guide_content) ;;
  print (LF +:+ "Complete guide compiled and saved to output/complete_guide.md") ;;
  ret "Guide creation completed successfully".

(** [GuideCreatorFlow().kickoff()]: the start method, then each listener
    with the value the step before it returned. *)
Definition flow_kickoff : M string :=
  state <- get_user_input ;;
  outline <- create_guide_outline state ;;
  write_and_compile_guide outline.

Definition kickoff : M unit :=
  flow_kickoff ;;
  print (LF +:+ "=== Flow Complete ===") ;;
  print "Your comprehensive guide is ready in the output directory." ;;
  print "Open output/complete_guide.md to view it.".

(** The process as it starts: a fresh flow object. *)
Definition start_world (lines : list string) (e : Env) : World :=
  mkWorld initial_state lines e.

(** ** One turn of the loop as a transition

    A point of the loop is what is left of [outline.sections], the list
    [completed_sections] and the world; a turn that returns leads to the
    next point.  (A turn that raises ends the run where it stands: the
    assignment to [sections_content] comes after the crew's answer.) *)
Inductive loop_step : list Section_ * list string * World →
                      list Section_ * list string * World → Prop :=
| loop_turn section rest completed w completed' w' evs :
    process_section section completed w = (Ok completed', w', evs) →
    loop_step (section :: rest, completed, w) (rest, completed', w').

(** What holds at every point of the loop over [outline.sections]: the
    sections split into those done and those left, the outline in the state
    is this outline, and the keys of the store are the titles of the
    sections done. *)
Definition loop_invariant (outline : GuideOutline)
    (point : list Section_ * list string * World) : Prop :=
  ∃ done,
    sections outline = done ++ point.1.1
    ∧ guide_outline (self_state point.2) = Some outline
    ∧ dom (sections_content (self_state point.2)) = list_to_set (Section_title <$> done).

End Flow.

(** ** Reading traces and stores *)

(** The crew runs of a trace, in order: the inputs and what came back. *)
Definition kickoffs (evs : list event) : list (gmap string string * result string) :=
  omap (fun ev => match ev with EKickoff i r => Some (i, r) | _ => None end) evs.

(** The file-system calls of a trace. *)
Definition is_file_event (ev : event) : bool :=
  match ev with
  | EMakedirs _ _ | EWrite _ _ _ => true
  | _ => false
  end.

Definition file_events (evs : list event) : list event := List.filter is_file_event evs.

Definition is_llm_event (ev : event) : bool :=
  match ev with
  | ELLMCall _ _ _ => true
  | _ => false
  end.

(** What goes through the terminal. *)
Definition is_console_event (ev : event) : bool :=
  match ev with
  | EPrint _ | EInput _ _ => true
  | _ => false
  end.

(** What the collector's loop reads and prints for the answers it turns
    down. *)
Definition rejections (rejected : list string) : list event :=
  flat_map
    (fun a => [EInput audience_prompt (Ok a);
               EPrint "Please enter 'beginner', 'intermediate', or 'advanced'"])
    rejected.

(** The same word in another letter case: some letters replaced by their
    capitals. *)
Definition upper_ascii (c : ascii) : ascii :=
  let n := nat_of_ascii c in
  if (97 <=? n) && (n <=? 122) then ascii_of_nat (n - 32) else c.

Inductive case_variant : string → string → Prop :=
| case_variant_empty : case_variant "" ""
| case_variant_same c v word : case_variant v word → case_variant (String c v) (String c word)
| case_variant_upper c v word :
    case_variant v word → case_variant (String (upper_ascii c) v) (String c word).

(** The audience prompts of a trace. *)
Definition is_audience_prompt (ev : event) : bool :=
  match ev with
  | EInput p _ => bool_decide (p = audience_prompt)
  | _ => false
  end.

(** [sections_content] after the sections of [authored] were stored in
    that order, each with the text the crew returned for it. *)
Definition stored (authored : list (Section_ * string)) (content : gmap string string)
    : gmap string string :=
  foldl (fun c p => <[Section_title p.1 := p.2]> c) content authored.

(** The text returned by the last crew run for a section titled [t]. *)
Fixpoint last_authored (authored : list (Section_ * string)) (t : string) : option string :=
  match authored with
  | [] => None
  | (s, raw) :: rest =>
      match last_authored rest t with
      | Some later => Some later
      | None => if bool_decide (Section_title s = t) then Some raw else None
      end
  end.

(** The events of the loop when every crew run returns: per section the
    announcement, the run with the context of that moment, the completion
    line. *)
Fixpoint loop_trace (audience : string) (authored : list (Section_ * string))
    (completed : list string) (content : gmap string string) : list event :=
  match authored with
  | [] => []
  | (s, raw) :: rest =>
      EPrint ("Processing section: " +:+ Section_title s)
      :: EKickoff (kickoff_inputs s audience (previous_sections_text completed content)) (Ok raw)
      :: EPrint ("Section completed: " +:+ Section_title s)
      :: loop_trace audience rest (completed ++ [Section_title s])
           (<[Section_title s := raw]> content)
  end.

Definition join (parts : list string) : string := foldr String.append "" parts.

(** The context as the specification words it: the fixed sentence when
    nothing is completed, otherwise one heading block per completed title
    followed by its stored content, in completed order. *)
Definition render_context (completed : list string) (content : gmap string string) : string :=
  match completed with
  | [] => "No previous sections written yet."
  | _ =>
      "# Previously Written Sections" +:+ LF2
        +:+ join (map (fun t => "## " +:+ t +:+ LF2 +:+ default "" (content !! t) +:+ LF2)
                    completed)
  end.

(** The document as the specification lays it out; [body s] is the text
    placed for section [s]. *)
Definition document (outline : GuideOutline) (body : Section_ → string) : string :=
  "# " +:+ title outline +:+ LF2
    +:+ "## Introduction" +:+ LF2 +:+ introduction outline +:+ LF2
    +:+ join (map (fun s => LF2 +:+ body s +:+ LF2) (sections outline))
    +:+ "## Conclusion" +:+ LF2 +:+ conclusion outline +:+ LF2.

(** The outline shape as the specification words it: an object with the
    four text fields and a list of objects with [title] and [description]. *)
Definition section_shape (v : json) (s : Section_) : Prop :=
  ∃ d, v = JObj d
       ∧ d !! "title" = Some (JStr (Section_title s))
       ∧ d !! "description" = Some (JStr (Section_description s)).

Definition outline_shape (v : json) (o : GuideOutline) : Prop :=
  ∃ d items, v = JObj d
       ∧ d !! "title" = Some (JStr (title o))
       ∧ d !! "introduction" = Some (JStr (introduction o))
       ∧ d !! "target_audience" = Some (JStr (target_audience o))
       ∧ d !! "sections" = Some (JArr items)
       ∧ Forall2 section_shape items (sections o)
       ∧ d !! "conclusion" = Some (JStr (conclusion o)).

(** The failures the specification files under schema validation. *)
Definition schema_validation_failure (e : exn) : Prop :=
  e = JSONDecodeError ∨ e = TypeError ∨ e = ValidationError.

Section Points.
Context `{X : External}.

(** The world after the sections of [authored] were written in world [w]
    and the outside world moved to [e]. *)
Definition after_sections (authored : list (Section_ * string)) (w : World) (e : Env)
    : World :=
  mkWorld
    (mkState (topic (self_state w)) (audience_level (self_state w))
       (guide_outline (self_state w))
       (stored authored (sections_content (self_state w))))
    (stdin w) e.

(** The inputs of the crew run for [section] in world [w]. *)
Definition inputs_at (section : Section_) (completed : list string) (w : World)
    : gmap string string :=
  kickoff_inputs section (audience_level (self_state w))
    (previous_sections_text completed (sections_content (self_state w))).

(** World [w] with another store in the place of [sections_content]. *)
Definition with_content (content : gmap string string) (w : World) : World :=
  mkWorld
    (mkState (topic (self_state w)) (audience_level (self_state w))
       (guide_outline (self_state w)) content)
    (stdin w) (env w).

End Points.

End Main.

(** * [server.py] *)

Module Server.

Record GuideRequest := mkGuideRequest {
  topic : string;
  target_audience : string
}.

(** What the handler takes from outside: the class [ContentCrew], which is
    defined in [crews/content_crew] and not in [main.py] or [server.py]
    (constructing an instance may raise; so may looking up its attribute
    [run]), and the callables that FastAPI's [BackgroundTasks] stores. *)
Class Framework `{X : Main.External} := {
  crew : Type;
  callable : Type;
  ContentCrew : Main.Env → Main.outcome crew * Main.Env;
  crew_run : crew → Main.outcome callable
}.

(** What the handler hands back to FastAPI: the returned dictionary, or the
    [HTTPException] it raised. *)
Inductive response :=
| Return (body : gmap string string)
| HTTPException (status_code : nat) (detail : string).

Section Handler.
Context `{F : Framework}.

(** An entry of [background_tasks.tasks]: the function and its argument. *)
Record task := mkTask {
  func : callable;
  arg : Main.GuideOutline
}.

(** The [try] block of [create_guide], with [except Exception as e]
    turning whatever was raised into [HTTPException(500, str(e))].  The
    outline is built from two strings of the validated request, an empty
    list and empty strings, so its own validation always passes. *)
Definition create_guide (request : GuideRequest) (background_tasks : list task)
    (e : Main.Env) : response * list task * Main.Env * list Main.event :=
  match ContentCrew e with
  | (Main.Fails m, e') =>
      (HTTPException 500 m, background_tasks, e', [Main.EContentCrew (Main.Fails m)])
  | (Main.Returns c, e') =>
      let outline :=
        Main.mkGuideOutline ("Comprehensive Guide to " +:+ topic request) ""
          (target_audience request) [] "" in
      match crew_run c with
      | Main.Fails m =>
          (HTTPException 500 m, background_tasks, e', [Main.EContentCrew (Main.Returns tt)])
      | Main.Returns run =>
          (Return {[ "status" := "Guide creation task started successfully";
                     "topic" := topic request;
                     "target_audience" := target_audience request ]},
           background_tasks ++ [mkTask run outline], e',
           [Main.EContentCrew (Main.Returns tt); Main.EAddTask outline])
      end
  end.

End Handler.

End Server.

(** * A scripted outside world

    The scenario of the specification: the topic is Home Gardening for
    beginners, the model answers with an outline of two sections, and the
    crew answers each run with the next entry of a script.  It is used to
    run the flow on concrete input. *)

Module Sample.
Import Main.

Definition q (s : string) : string := DQUOTE +:+ s +:+ DQUOTE.

Definition outline : GuideOutline :=
  {| title := "Home Gardening";
     introduction := "Why grow your own.";
     target_audience := "beginner";
     sections := [ mkSection "Getting Started" "Choosing a plot";
                   mkSection "Tools" "What to buy first" ];
     conclusion := "Happy growing." |}.

(** The text of [outline] as [json.dump] with [indent=2] prints it. *)
Definition outline_text : string :=
  "{" +:+ LF
  +:+ "  " +:+ q "title" +:+ ": " +:+ q "Home Gardening" +:+ "," +:+ LF
  +:+ "  " +:+ q "introduction" +:+ ": " +:+ q "Why grow your own." +:+ "," +:+ LF
  +:+ "  " +:+ q "target_audience" +:+ ": " +:+ q "beginner" +:+ "," +:+ LF
  +:+ "  " +:+ q "sections" +:+ ": [" +:+ LF
  +:+ "    {" +:+ LF
  +:+ "      " +:+ q "title" +:+ ": " +:+ q "Getting Started" +:+ "," +:+ LF
  +:+ "      " +:+ q "description" +:+ ": " +:+ q "Choosing a plot" +:+ LF
  +:+ "    }," +:+ LF
  +:+ "    {" +:+ LF
  +:+ "      " +:+ q "title" +:+ ": " +:+ q "Tools" +:+ "," +:+ LF
  +:+ "      " +:+ q "description" +:+ ": " +:+ q "What to buy first" +:+ LF
  +:+ "    }" +:+ LF
  +:+ "  ]," +:+ LF
  +:+ "  " +:+ q "conclusion" +:+ ": " +:+ q "Happy growing." +:+ LF
  +:+ "}".

(** The outside world of the scenario.  Its state is the script of the
    crew's answers; the model always answers [outline_text]; the disk takes
    every write; the [json] functions are given on the one document that
    occurs. *)
Definition external : External :=
  {| Env := list (outcome string);
     llm_call := fun _ _ e => (Returns outline_text, e);
     crew_kickoff := fun _ e =>
       match e with
       | answer :: script => (answer, script)
       | [] => (Fails "the script has ended", [])
       end;
     os_makedirs := fun _ e => (Returns tt, e);
     write_file := fun _ _ e => (Returns tt, e);
     json_loads := fun text =>
       if bool_decide (text = outline_text) then Some (GuideOutline_dump outline) else None;
     json_dumps := fun _ _ => outline_text |}.

(** A model that answers with something that is no JSON text. *)
Definition external_bad_json : External :=
  {| Env := list (outcome string);
     llm_call := fun _ _ e => (Returns "Sure! Here is your outline.", e);
     crew_kickoff := @crew_kickoff external;
     os_makedirs := @os_makedirs external;
     write_file := @write_file external;
     json_loads := @json_loads external;
     json_dumps := @json_dumps external |}.

(** A [ContentCrew] whose construction and [run] attribute both succeed. *)
Definition framework : @Server.Framework external :=
  {| Server.crew := unit;
     Server.callable := unit;
     Server.ContentCrew := fun e => (Returns tt, e);
     Server.crew_run := fun _ => Returns tt |}.

Definition script : list (outcome string) :=
  [Returns "## Getting Started"; Returns "## Tools"].

(** The crew fails on the second of three sections. *)
Definition outline3 : GuideOutline :=
  {| title := "Home Gardening";
     introduction := "Why grow your own.";
     target_audience := "beginner";
     sections := [ mkSection "Getting Started" "Choosing a plot";
                   mkSection "Tools" "What to buy first";
                   mkSection "Watering" "How much and when" ];
     conclusion := "Happy growing." |}.

Definition failing_script : list (outcome string) :=
  [Returns "## Getting Started"; Fails "rate limit"; Returns "## Watering"].

(** Two sections under one title. *)
Definition outline_twice : GuideOutline :=
  {| title := "Home Gardening";
     introduction := "Why grow your own.";
     target_audience := "beginner";
     sections := [ mkSection "Tools" "Hand tools"; mkSection "Tools" "Power tools" ];
     conclusion := "Happy growing." |}.

Definition script_twice : list (outcome string) :=
  [Returns "first text"; Returns "second text"].

Definition world (st : GuideCreatorState) (lines : list string) (e : list (outcome string))
    : @World external :=
  @mkWorld external st lines e.

Definition ready : GuideCreatorState :=
  {| topic := "Home Gardening"; audience_level := "beginner";
     guide_outline := Some outline; sections_content := ∅ |}.

(** The last step on the two-section outline, with a crew that answers. *)
Definition compile_run : result string * @World external * list event :=
  @write_and_compile_guide external outline (world ready [] script).

(** The last step on the three-section outline, with a crew that fails on
    the second section. *)
Definition failing_run : result string * @World external * list event :=
  @write_and_compile_guide external outline3 (world ready [] failing_script).

(** The last step on the outline with one title twice. *)
Definition twice_run : result string * @World external * list event :=
  @write_and_compile_guide external outline_twice (world ready [] script_twice).

(** What the user types: a topic, two answers that are no level, then a
    level in capitals. *)
Definition typed : list string := ["Home Gardening"; "expert"; ""; "BEGINNER"].

Definition request : Server.GuideRequest :=
  Server.mkGuideRequest "Home Gardening" "beginner".

(** The first two steps of the flow on what the user types. *)
Definition input_run : result GuideCreatorState * @World external * list event :=
  @get_user_input external (@start_world external typed script).

Definition outline_run : result GuideOutline * @World external * list event :=
  @create_guide_outline external (self_state input_run.1.2) input_run.1.2.

(** The outline step with a model that answers in prose. *)
Definition bad_json_run
    : result GuideOutline * @World external_bad_json * list event :=
  @create_guide_outline external_bad_json ready (@mkWorld external_bad_json ready [] script).

Definition handler_run :=
  @Server.create_guide external framework request [] script.

(** The whole flow on what the user types. *)
Definition flow_run : result string * @World external * list event :=
  @flow_kickoff external (@start_world external typed script).

(** A disk that takes no write. *)
Definition external_disk_full : External :=
  {| Env := list (outcome string);
     llm_call := @llm_call external;
     crew_kickoff := @crew_kickoff external;
     os_makedirs := @os_makedirs external;
     write_file := fun _ _ e => (Fails "disk full", e);
     json_loads := @json_loads external;
     json_dumps := @json_dumps external |}.

Definition outline_disk_full_run
    : result GuideOutline * @World external_disk_full * list event :=
  @create_guide_outline external_disk_full ready
    (@mkWorld external_disk_full ready [] script).

Definition compile_disk_full_run
    : result string * @World external_disk_full * list event :=
  @write_and_compile_guide external_disk_full outline
    (@mkWorld external_disk_full ready [] script).

(** An outline without sections. *)
Definition outline_empty : GuideOutline :=
  {| title := "Home Gardening";
     introduction := "Why grow your own.";
     target_audience := "beginner";
     sections := [];
     conclusion := "Happy growing." |}.

Definition empty_run : result string * @World external * list event :=
  @write_and_compile_guide external outline_empty (world ready [] script).

(** The input ends before a level is typed. *)
Definition eof_world : @World external :=
  @start_world external ["Home Gardening"; "expert"] script.

(** The whole flow with a crew that fails on the first section. *)
Definition flow_failing_run : result string * @World external * list event :=
  @flow_kickoff external (@start_world external typed [Fails "rate limit"]).

(** The entry point on what the user types. *)
Definition kickoff_run : result unit * @World external * list event :=
  @kickoff external (@start_world external typed script).



(** The guide the flow is to write. *)
Definition guide_text : string :=
  "# Home Gardening" +:+ LF +:+ LF
  +:+ "## Introduction" +:+ LF +:+ LF
  +:+ "Why grow your own." +:+ LF +:+ LF
  +:+ LF +:+ LF +:+ "## Getting Started" +:+ LF +:+ LF
  +:+ LF +:+ LF +:+ "## Tools" +:+ LF +:+ LF
  +:+ "## Conclusion" +:+ LF +:+ LF
  +:+ "Happy growing." +:+ LF +:+ LF.

End Sample.

(** * Facts about [main.py] *)

Import Main.

(** Looking a literal key up in a dictionary written out key by key. *)
Ltac lookup_literal :=
  repeat first
    [ rewrite lookup_insert_eq
    | rewrite lookup_singleton_eq
    | rewrite lookup_insert_ne by done ].

Section MainFacts.
Context `{X : External}.
Local Open Scope flow_scope.

Implicit Types (w : World) (evs : list event) (content : gmap string string).

(** ** Text *)

Lemma append_cons (x : ascii) (a b : string) : String x a +:+ b = String x (a +:+ b).
Proof. reflexivity. Qed.

Lemma append_assoc (a b c : string) : (a +:+ b) +:+ c = a +:+ (b +:+ c).
Proof. induction a as [|x a IH]; [done|]. by rewrite !append_cons, IH. Qed.

Lemma append_empty_r (a : string) : a +:+ "" = a.
Proof. induction a as [|x a IH]; [done|]. by rewrite append_cons, IH. Qed.

Lemma join_app (l k : list string) : join (l ++ k) = join l +:+ join k.
Proof.
  induction l as [|x l IH]; simpl; [done|].
  by rewrite IH, append_assoc.
Qed.

Lemma foldl_append_join {A} (f : A → string) (l : list A) (acc : string) :
  foldl (fun text a => text +:+ f a) acc l = acc +:+ join (map f l).
Proof.
  revert acc. induction l as [|a l IH]; intros acc; simpl.
  - by rewrite append_empty_r.
  - by rewrite IH, append_assoc.
Qed.

(** The loop of lines 186-189 builds what the specification describes. *)
Lemma previous_sections_text_spec completed content :
  previous_sections_text completed content = render_context completed content.
Proof.
  unfold previous_sections_text, render_context.
  destruct completed as [|t completed]; [done|].
  set (l := t :: completed). clearbody l.
  rewrite <- append_assoc.
  rewrite <- (foldl_append_join
    (fun t => "## " +:+ t +:+ LF2 +:+ default "" (content !! t) +:+ LF2)).
  generalize ("# Previously Written Sections" +:+ LF2).
  induction l as [|a l IH]; intros acc; simpl; [done|].
  rewrite <- IH. f_equal. by rewrite !append_assoc.
Qed.

(** Lines 208-218 build the document the specification lays out. *)
Lemma compile_guide_spec outline content :
  compile_guide outline content
  = document outline (fun s => default "" (content !! Section_title s)).
Proof.
  unfold compile_guide, document.
  rewrite (foldl_append_join
    (fun s => LF2 +:+ default "" (content !! Section_title s) +:+ LF2)).
  by rewrite <- !append_assoc.
Qed.

(** ** The loop over the sections *)

Lemma process_section_run section completed w :
  process_section section completed w =
  match crew_kickoff (inputs_at section completed w) (env w) with
  | (Returns raw, e) =>
      (Ok (completed ++ [Section_title section]),
       after_sections [(section, raw)] w e,
       [EPrint ("Processing section: " +:+ Section_title section);
        EKickoff (inputs_at section completed w) (Ok raw);
        EPrint ("Section completed: " +:+ Section_title section)])
  | (Fails m, e) =>
      (Raise (CrewError m), mkWorld (self_state w) (stdin w) e,
       [EPrint ("Processing section: " +:+ Section_title section);
        EKickoff (inputs_at section completed w) (Raise (CrewError m))])
  end.
Proof.
  unfold process_section, bind, print, get_state, call, modify_state, ret, inputs_at.
  simpl. destruct (crew_kickoff _ _) as [[raw|m] e]; reflexivity.
Qed.

Lemma after_sections_nil w e :
  after_sections [] w e = mkWorld (self_state w) (stdin w) e.
Proof. by destruct w as [[] ? ?]. Qed.

Lemma after_sections_cons p authored w e e' :
  after_sections authored (after_sections [p] w e) e' = after_sections (p :: authored) w e'.
Proof. reflexivity. Qed.

(** A run of the loop that returns: every section was written, in order,
    each with the context of its moment. *)
Lemma write_sections_returns todo completed w completed' w' evs :
  write_sections todo completed w = (Ok completed', w', evs) →
  ∃ raws,
    length raws = length todo
    ∧ completed' = completed ++ map Section_title todo
    ∧ w' = after_sections (zip todo raws) w (env w')
    ∧ evs = loop_trace (audience_level (self_state w)) (zip todo raws) completed
              (sections_content (self_state w)).
Proof.
  revert completed w evs.
  induction todo as [|section rest IH]; intros completed w evs Hrun; simpl in Hrun.
  - injection Hrun as <- <- <-. exists []. rewrite app_nil_r.
    by destruct w as [[] ? ?].
  - unfold bind in Hrun. rewrite process_section_run in Hrun.
    destruct (crew_kickoff _ _) as [[raw|m] e]; [|done].
    destruct (write_sections rest _ _) as [[r w2] evs2] eqn:Hrest.
    injection Hrun as -> -> <-.
    apply IH in Hrest as (raws & Hlen & -> & Hw & ->).
    exists (raw :: raws). simpl. split_and!.
    + by rewrite Hlen.
    + by rewrite <- app_assoc.
    + rewrite Hw at 1. by rewrite after_sections_cons.
    + reflexivity.
Qed.

(** A run of the loop that raises: the sections before the failing one
    were written as above, the failing run is the last event, and it was
    the crew that failed. *)
Lemma write_sections_raises todo completed w e w' evs :
  write_sections todo completed w = (Raise e, w', evs) →
  ∃ done section rest raws m,
    todo = done ++ section :: rest
    ∧ length raws = length done
    ∧ e = CrewError m
    ∧ w' = after_sections (zip done raws) w (env w')
    ∧ evs = loop_trace (audience_level (self_state w)) (zip done raws) completed
              (sections_content (self_state w))
            ++ [EPrint ("Processing section: " +:+ Section_title section);
                EKickoff (inputs_at section (completed ++ map Section_title done) w') (Raise e)].
Proof.
  revert completed w evs.
  induction todo as [|section rest IH]; intros completed w evs Hrun; simpl in Hrun; [done|].
  unfold bind in Hrun. rewrite process_section_run in Hrun.
  destruct (crew_kickoff _ _) as [[raw|m] e1] eqn:Hk.
  - destruct (write_sections rest _ _) as [[r w2] evs2] eqn:Hrest.
    injection Hrun as -> -> <-.
    apply IH in Hrest as (done & s & rest' & raws & m & -> & Hlen & -> & Hw & ->).
    exists (section :: done), s, rest', (raw :: raws), m. simpl. split_and!; try done.
    + by rewrite Hlen.
    + by rewrite <- app_assoc.
  - injection Hrun as <- <- <-.
    exists [], section, rest, [], m. simpl. rewrite app_nil_r. split_and!; try done.
    by rewrite after_sections_nil.
Qed.

(** The whole step, by the outcome of its loop and of its one write. *)
Lemma write_and_compile_guide_run outline w :
  write_and_compile_guide outline w =
  match write_sections (sections outline) [] w with
  | (Ok _, w1, evs1) =>
      let doc := compile_guide outline (sections_content (self_state w1)) in
      match write_file guide_path doc (env w1) with
      | (Returns _, e2) =>
          (Ok "Guide creation completed successfully",
           mkWorld (self_state w1) (stdin w1) e2,
           EPrint "Writing guide sections and compiling..."
           :: evs1 ++ [EWrite guide_path doc (Ok tt);
                       EPrint (LF +:+ "Complete guide compiled and saved to output/complete_guide.md")])
      | (Fails m, e2) =>
          (Raise (FileError m), mkWorld (self_state w1) (stdin w1) e2,
           EPrint "Writing guide sections and compiling..."
           :: evs1 ++ [EWrite guide_path doc (Raise (FileError m))])
      end
  | (Raise e, w1, evs1) =>
      (Raise e, w1, EPrint "Writing guide sections and compiling..." :: evs1)
  end.
Proof.
  unfold write_and_compile_guide, bind, print, get_state, call, ret. simpl.
  destruct (write_sections _ _ _) as [[[c|e] w1] evs1]; [|done]. simpl.
  destruct (write_file _ _ _) as [[[]|m] e2]; reflexivity.
Qed.

(** ** Reading the loop's trace *)

Lemma kickoffs_app evs1 evs2 : kickoffs (evs1 ++ evs2) = kickoffs evs1 ++ kickoffs evs2.
Proof. apply omap_app. Qed.

Lemma kickoffs_loop_trace_length audience authored completed content :
  length (kickoffs (loop_trace audience authored completed content)) = length authored.
Proof.
  revert completed content.
  induction authored as [|[s raw] authored IH]; intros completed content; simpl; [done|].
  by rewrite IH.
Qed.

(** The [i]-th crew run of the loop: the section at position [i], the
    titles before it as completed, and the store as it is after the first
    [i] sections. *)
Lemma kickoffs_loop_trace_lookup audience authored completed content i s raw :
  authored !! i = Some (s, raw) →
  kickoffs (loop_trace audience authored completed content) !! i
  = Some (kickoff_inputs s audience
            (previous_sections_text (completed ++ map (fun p => Section_title p.1) (take i authored))
               (stored (take i authored) content)),
          Ok raw).
Proof.
  revert completed content i.
  induction authored as [|[s0 raw0] authored IH]; intros completed content i Hi; [done|].
  destruct i as [|i]; simpl in *.
  - injection Hi as -> ->. by rewrite app_nil_r.
  - rewrite (IH _ _ _ Hi). by rewrite <- app_assoc.
Qed.

Lemma write_and_compile_guide_kickoffs outline w res w' evs :
  write_and_compile_guide outline w = (res, w', evs) →
  (∀ m, res ≠ Raise (CrewError m)) →
  ∃ raws,
    length raws = length (sections outline)
    ∧ sections_content (self_state w')
      = stored (zip (sections outline) raws) (sections_content (self_state w))
    ∧ kickoffs evs
      = kickoffs (loop_trace (audience_level (self_state w)) (zip (sections outline) raws) []
                    (sections_content (self_state w))).
Proof.
  intros Hrun Hcrew. rewrite write_and_compile_guide_run in Hrun.
  destruct (write_sections _ _ _) as [[[c|e] w1] evs1] eqn:Hloop.
  - apply write_sections_returns in Hloop as (raws & Hlen & _ & Hw1 & ->).
    exists raws. split; [done|]. cbv zeta in Hrun.
    destruct (write_file _ _ _) as [[[]|m] e2]; injection Hrun as <- <- <-;
      simpl; rewrite kickoffs_app, app_nil_r; by rewrite Hw1 at 1.
  - apply write_sections_raises in Hloop as (? & ? & ? & ? & m & _ & _ & -> & _).
    injection Hrun as <- _ _. by destruct (Hcrew m).
Qed.

(** C1. When no crew run fails, the step runs the crew once per section
    of the outline, in outline order: the trace holds as many runs as the
    outline has sections, and the run at position [i] gets the title and
    description of section [i], the state's audience level, the rendered
    context of the sections before it, and the empty draft. *)
Theorem author_runs_once_per_section outline w res w' evs :
  write_and_compile_guide outline w = (res, w', evs) →
  (∀ m, res ≠ Raise (CrewError m)) →
  ∃ authored,
    authored.*1 = sections outline
    ∧ length (kickoffs evs) = length (sections outline)
    ∧ ∀ i section raw, authored !! i = Some (section, raw) →
        kickoffs evs !! i
        = Some ({[ "section_title" := Section_title section;
                   "section_description" := Section_description section;
                   "audience_level" := audience_level (self_state w);
                   "previous_sections" :=
                     render_context (Section_title <$> take i (sections outline))
                       (stored (take i authored) (sections_content (self_state w)));
                   "draft_content" := "" ]},
                Ok raw).
Proof.
  intros Hrun Hcrew.
  destruct (write_and_compile_guide_kickoffs _ _ _ _ _ Hrun Hcrew) as (raws & Hlen & _ & ->).
  exists (zip (sections outline) raws).
  assert ((zip (sections outline) raws).*1 = sections outline) as Hfst
    by (apply fst_zip; lia).
  split_and!; [done| |].
  - by rewrite kickoffs_loop_trace_length, length_zip, Hlen, Nat.min_id.
  - intros i section raw Hi.
    rewrite (kickoffs_loop_trace_lookup _ _ _ _ _ _ _ Hi), previous_sections_text_spec.
    replace (Section_title <$> take i (sections outline))
      with (Section_title <$> take i ((zip (sections outline) raws).*1))
      by (by rewrite Hfst).
    by rewrite <- fmap_take, <- list_fmap_compose.
Qed.

(** ** What the store holds *)

Lemma stored_cons p authored content :
  stored (p :: authored) content = stored authored (<[Section_title p.1 := p.2]> content).
Proof. reflexivity. Qed.

Lemma stored_snoc authored p content :
  stored (authored ++ [p]) content = <[Section_title p.1 := p.2]> (stored authored content).
Proof. unfold stored. by rewrite foldl_snoc. Qed.

(** Under a title the store holds the text of the last run for that
    title, and what it held before when there was no such run. *)
Lemma stored_lookup authored content t :
  stored authored content !! t
  = match last_authored authored t with
    | Some raw => Some raw
    | None => content !! t
    end.
Proof.
  revert content.
  induction authored as [|[s raw] authored IH]; intros content; [done|].
  rewrite stored_cons, IH. simpl.
  destruct (last_authored authored t); [done|].
  case_bool_decide as Ht.
  - rewrite Ht. apply lookup_insert_eq.
  - by apply lookup_insert_ne.
Qed.

Lemma last_authored_is_Some authored s :
  s ∈ authored.*1 → is_Some (last_authored authored (Section_title s)).
Proof.
  induction authored as [|[s0 raw0] authored IH]; simpl; intros Hin.
  - by apply elem_of_nil in Hin.
  - destruct (last_authored authored (Section_title s)) eqn:Hlast; [by eexists|].
    apply elem_of_cons in Hin as [->|Hin].
    + rewrite bool_decide_eq_true_2 by done. by eexists.
    + apply IH in Hin as [? ?]. done.
Qed.

(** When the titles are pairwise distinct, the last run for the title of
    a section is that section's own run. *)
Lemma last_authored_NoDup authored j s raw :
  NoDup (Section_title <$> authored.*1) →
  authored !! j = Some (s, raw) →
  last_authored authored (Section_title s) = Some raw.
Proof.
  revert j. induction authored as [|[s0 raw0] authored IH]; intros j Hnd Hj; [done|].
  simpl in Hnd. apply NoDup_cons in Hnd as [Hnotin Hnd].
  destruct j as [|j]; simpl in *.
  - injection Hj as -> ->.
    destruct (last_authored authored (Section_title s)) eqn:Hlast.
    + exfalso. apply Hnotin. clear -Hlast.
      induction authored as [|[s1 raw1] authored IH]; simpl in *; [done|].
      destruct (last_authored authored (Section_title s)); [right; by apply IH|].
      case_bool_decide as Ht; [|done]. rewrite Ht. left.
    + by rewrite bool_decide_eq_true_2.
  - by rewrite (IH j Hnd Hj).
Qed.

(** Every crew run of the loop, whether it returned or raised: it is the
    run for the section at its position, the runs before it returned the
    texts of [authored], and its context was rendered from them. *)
Lemma write_sections_kickoff_lookup todo completed w res w' evs i inputs r :
  write_sections todo completed w = (res, w', evs) →
  kickoffs evs !! i = Some (inputs, r) →
  ∃ authored section,
    authored.*1 = take i todo
    ∧ todo !! i = Some section
    ∧ Ok <$> authored.*2 = (take i (kickoffs evs)).*2
    ∧ inputs = kickoff_inputs section (audience_level (self_state w))
                 (previous_sections_text (completed ++ (Section_title <$> authored.*1))
                    (stored authored (sections_content (self_state w)))).
Proof.
  revert completed w evs i.
  induction todo as [|s rest IH]; intros completed w evs i Hrun Hi; simpl in Hrun.
  - by injection Hrun as <- <- <-.
  - unfold bind in Hrun. rewrite process_section_run in Hrun.
    destruct (crew_kickoff _ _) as [[raw|m] e1].
    + destruct (write_sections rest _ _) as [[r2 w2] evs2] eqn:Hrest.
      injection Hrun as <- <- <-. simpl in Hi.
      destruct i as [|i]; simpl in Hi.
      * injection Hi as <- <-. exists [], s. by rewrite app_nil_r.
      * destruct (IH _ _ _ _ Hrest Hi) as (authored & section & Hfst & Hsec & Hraws & ->).
        exists ((s, raw) :: authored), section. split_and!; simpl.
        -- f_equal. exact Hfst.
        -- done.
        -- f_equal. exact Hraws.
        -- by rewrite <- app_assoc.
    + injection Hrun as <- <- <-.
      destruct i as [|i]; simpl in Hi; [|done].
      injection Hi as <- <-. exists [], s. by rewrite app_nil_r.
Qed.

Lemma write_and_compile_guide_loop_kickoffs outline w :
  kickoffs (write_and_compile_guide outline w).2
  = kickoffs (write_sections (sections outline) [] w).2.
Proof.
  rewrite write_and_compile_guide_run.
  destruct (write_sections _ _ _) as [[[c|e] w1] evs1]; [|done]. cbv zeta.
  destruct (write_file _ _ _) as [[[]|m] e2]; simpl;
    by rewrite kickoffs_app, app_nil_r.
Qed.

Lemma kickoff_inputs_previous_sections section audience text :
  kickoff_inputs section audience text !! "previous_sections" = Some text.
Proof. unfold kickoff_inputs. by simplify_map_eq. Qed.

(** The rendered context, with the stored texts named by the runs that
    stored them. *)
Lemma render_context_authored authored content :
  render_context (Section_title <$> authored.*1) (stored authored content)
  = match authored with
    | [] => "No previous sections written yet."
    | _ =>
        "# Previously Written Sections" +:+ LF2
          +:+ join (map (fun s => "## " +:+ Section_title s +:+ LF2
                                    +:+ default "" (last_authored authored (Section_title s))
                                    +:+ LF2)
                      authored.*1)
    end.
Proof.
  destruct authored as [|p authored]; [done|].
  set (l := p :: authored). unfold render_context.
  replace (Section_title <$> l.*1) with (Section_title p.1 :: (Section_title <$> authored.*1))
    by done.
  cbv beta iota. do 2 f_equal.
  change (Section_title p.1 :: (Section_title <$> authored.*1)) with (Section_title <$> l.*1).
  unfold fmap at 1. rewrite map_map. f_equal. apply map_ext_in. intros s Hs.
  rewrite stored_lookup.
  destruct (last_authored_is_Some l s) as [raw ->]; [|done].
  by apply list_elem_of_In.
Qed.

(** C2. The context passed to the crew run for the section at position
    [i] (counting from 0) is the fixed sentence when [i = 0]; otherwise it
    is the heading line followed, for each of the sections before it in
    outline order, by a block with that section's title as a heading and
    the text stored under that title, which is the text the latest of the
    earlier runs for that title returned. *)
Theorem context_of_each_run outline w res w' evs i inputs r :
  write_and_compile_guide outline w = (res, w', evs) →
  kickoffs evs !! i = Some (inputs, r) →
  ∃ authored,
    authored.*1 = take i (sections outline)
    ∧ Ok <$> authored.*2 = (take i (kickoffs evs)).*2
    ∧ (∀ s, s ∈ take i (sections outline) →
         is_Some (last_authored authored (Section_title s)))
    ∧ inputs !! "previous_sections"
      = Some match i with
             | 0 => "No previous sections written yet."
             | S _ =>
                 "# Previously Written Sections" +:+ LF2
                   +:+ join (map (fun s => "## " +:+ Section_title s +:+ LF2
                                     +:+ default "" (last_authored authored (Section_title s))
                                     +:+ LF2)
                               (take i (sections outline)))
             end.
Proof.
  intros Hrun Hi.
  pose proof (write_and_compile_guide_loop_kickoffs outline w) as Hk.
  rewrite Hrun in Hk. simpl in Hk. rewrite Hk in Hi |- *.
  destruct (write_sections (sections outline) [] w) as [[r1 w1] evs1] eqn:Hloop.
  simpl in Hi |- *.
  destruct (write_sections_kickoff_lookup _ _ _ _ _ _ _ _ _ Hloop Hi)
    as (authored & section & Hfst & Hsec & Hraws & ->).
  exists authored. split_and!; [done|done| |].
  - intros s Hs. apply last_authored_is_Some. by rewrite Hfst.
  - rewrite kickoff_inputs_previous_sections. f_equal. simpl.
    rewrite previous_sections_text_spec, render_context_authored, <- Hfst.
    destruct i as [|i].
    + destruct authored; [done|]. by rewrite take_0 in Hfst.
    + destruct authored; [|done].
      destruct (sections outline); [done|]. by rewrite firstn_cons in Hfst.
Qed.

(** ** The document *)

Lemma file_events_app evs1 evs2 : file_events (evs1 ++ evs2) = file_events evs1 ++ file_events evs2.
Proof. apply List.filter_app. Qed.

Lemma file_events_loop_trace audience authored completed content :
  file_events (loop_trace audience authored completed content) = [].
Proof.
  revert completed content.
  induction authored as [|[s raw] authored IH]; intros completed content; simpl; [done|].
  apply IH.
Qed.

(** The document depends on the store only through what it holds under
    the titles of the outline's sections. *)
Lemma compile_guide_ext outline content1 content2 :
  (∀ s, s ∈ sections outline → content1 !! Section_title s = content2 !! Section_title s) →
  compile_guide outline content1 = compile_guide outline content2.
Proof.
  intros Hagree. rewrite !compile_guide_spec. unfold document.
  replace (map (fun s => LF2 +:+ default "" (content1 !! Section_title s) +:+ LF2)
             (sections outline))
    with (map (fun s => LF2 +:+ default "" (content2 !! Section_title s) +:+ LF2)
            (sections outline)); [done|].
  apply map_ext_in. intros s Hs.
  rewrite Hagree; [done|]. by apply list_elem_of_In.
Qed.

Lemma stored_is_Some authored content s :
  s ∈ authored.*1 → is_Some (stored authored content !! Section_title s).
Proof.
  intros Hs. rewrite stored_lookup.
  by destruct (last_authored_is_Some authored s Hs) as [raw ->].
Qed.

(** C3. In a run that completes, the one file written is the guide, and
    its text is: the title as a first-level heading, a blank line, the
    Introduction heading, a blank line, the introduction, then for every
    section of the outline, in outline order, the text stored under its
    title and nothing else of the section, then the Conclusion heading, a
    blank line and the conclusion.  Every section's text is present in the
    store, and any store holding the same texts under the same titles
    gives the same document. *)
Theorem final_document outline w msg w' evs :
  write_and_compile_guide outline w = (Ok msg, w', evs) →
  let content := sections_content (self_state w') in
  let doc := document outline (fun s => default "" (content !! Section_title s)) in
  file_events evs = [EWrite guide_path doc (Ok tt)]
  ∧ (∀ s, s ∈ sections outline → is_Some (content !! Section_title s))
  ∧ (∀ content2,
       (∀ s, s ∈ sections outline → content2 !! Section_title s = content !! Section_title s) →
       compile_guide outline content2 = doc).
Proof.
  intros Hrun. rewrite write_and_compile_guide_run in Hrun.
  destruct (write_sections _ _ _) as [[[c|e] w1] evs1] eqn:Hloop; [|done].
  apply write_sections_returns in Hloop as (raws & Hlen & _ & Hw1 & ->).
  cbv zeta in Hrun.
  destruct (write_file _ _ _) as [[[]|m] e2]; [|done].
  injection Hrun as <- <- <-. simpl.
  split_and!.
  - change (file_events (?a :: ?l)) with (file_events l).
    rewrite file_events_app, file_events_loop_trace, compile_guide_spec. done.
  - intros s Hs. rewrite Hw1. simpl. apply stored_is_Some.
    rewrite fst_zip by lia. done.
  - intros content2 Hagree. rewrite <- compile_guide_spec. by apply compile_guide_ext.
Qed.

(** ** The input collector *)

Lemma audience_loop_rejects a lines w :
  lower a ∉ audience_levels →
  audience_loop (a :: lines) w =
  match audience_loop lines w with
  | (r, w', evs) => (r, w', rejections [a] ++ evs)
  end.
Proof. intros Ha. simpl. by rewrite bool_decide_eq_false_2. Qed.

Lemma audience_loop_accepts rejected v rest w :
  Forall (fun a => lower a ∉ audience_levels) rejected →
  lower v ∈ audience_levels →
  audience_loop (rejected ++ v :: rest) w =
  (Ok tt, mkWorld (set_audience_level (lower v) (self_state w)) rest (env w),
   rejections rejected ++ [EInput audience_prompt (Ok v)]).
Proof.
  intros Hrej Hv. induction Hrej as [|a rejected Ha _ IH].
  - simpl. by rewrite bool_decide_eq_true_2.
  - rewrite <- app_comm_cons, audience_loop_rejects, IH by done.
    by rewrite app_assoc.
Qed.

Lemma audience_prompts_rejections rejected :
  List.filter is_audience_prompt (rejections rejected)
  = map (fun a => EInput audience_prompt (Ok a)) rejected.
Proof.
  induction rejected as [|a rejected IH]; [done|].
  cbn [rejections flat_map app List.filter is_audience_prompt map].
  rewrite bool_decide_eq_true_2 by done. f_equal. exact IH.
Qed.

Lemma lower_upper_ascii c : lower_ascii (upper_ascii c) = lower_ascii c.
Proof. by destruct c as [[] [] [] [] [] [] [] []]. Qed.

Lemma lower_case_variant v word : case_variant v word → lower v = lower word.
Proof.
  induction 1 as [|c v word _ IH|c v word _ IH]; simpl; [done| |].
  - by rewrite IH.
  - by rewrite IH, lower_upper_ascii.
Qed.

(** The three levels, written in any letter case, are taken. *)
Lemma case_variant_accepted v word :
  word ∈ audience_levels → case_variant v word → lower v = word ∧ lower v ∈ audience_levels.
Proof.
  intros Hword Hv. rewrite (lower_case_variant _ _ Hv).
  assert (lower word = word) as ->; [|done].
  unfold audience_levels in Hword.
  repeat (apply elem_of_cons in Hword as [->|Hword]; [done|]).
  by apply elem_of_nil in Hword.
Qed.

(** C8. Whatever the topic line is, it is stored as it is.  Every answer
    whose lower-case form is none of the three levels is turned down with
    the hint and followed by the next prompt, however many there are, and
    no exception comes of it; the first answer whose lower-case form is a
    level ends the loop and is stored in lower case.  The audience prompts
    of the run are one per answer turned down plus one: a valid first
    answer is prompted for once. *)
Theorem audience_collection w t rejected v rest :
  stdin w = t :: rejected ++ v :: rest →
  Forall (fun a => lower a ∉ audience_levels) rejected →
  lower v ∈ audience_levels →
  ∃ st evs,
    get_user_input w = (Ok st, mkWorld st rest (env w), evs)
    ∧ st = set_audience_level (lower v) (set_topic t (self_state w))
    ∧ evs = EPrint (LF +:+ "=== Create Your Comprehensive Guide ===" +:+ LF)
            :: EInput "What topic would you like to create a guide for? " (Ok t)
            :: rejections rejected
            ++ [EInput audience_prompt (Ok v);
                EPrint (LF +:+ "Creating a guide on " +:+ t +:+ " for " +:+ lower v
                          +:+ " audience..." +:+ LF)]
    ∧ List.filter is_audience_prompt evs
      = map (fun a => EInput audience_prompt (Ok a)) (rejected ++ [v]).
Proof.
  intros Hin Hrej Hv.
  unfold get_user_input, bind, print, input, modify_state, ask_audience, get_state, ret.
  rewrite Hin. simpl. rewrite (audience_loop_accepts _ _ _ _ Hrej Hv). simpl.
  eexists _, _. split_and!; try reflexivity.
  - by rewrite <- app_assoc.
  - cbn [List.filter is_audience_prompt].
    rewrite bool_decide_eq_false_2 by done.
    rewrite !List.filter_app, audience_prompts_rejections.
    cbn [List.filter is_audience_prompt].
    rewrite bool_decide_eq_true_2 by done. by rewrite app_nil_r, map_app.
Qed.

(** ** The outline generator *)

Lemma create_guide_outline_run state w :
  create_guide_outline state w =
  let model := "openai/gpt-4o-mini" in
  let messages := outline_messages state in
  let announce := EPrint "Creating guide outline..." in
  match llm_call model messages (env w) with
  | (Fails m, e1) =>
      (Raise (LLMCallError m), mkWorld (self_state w) (stdin w) e1,
       [announce; ELLMCall model messages (Raise (LLMCallError m))])
  | (Returns response, e1) =>
      let asked := ELLMCall model messages (Ok response) in
      match parse_outline response with
      | Raise e => (Raise e, mkWorld (self_state w) (stdin w) e1, [announce; asked])
      | Ok (outline_dict, outline) =>
          let st := set_guide_outline outline (self_state w) in
          let text := json_dumps outline_dict 2 in
          match os_makedirs "output" e1 with
          | (Fails m, e2) =>
              (Raise (FileError m), mkWorld st (stdin w) e2,
               [announce; asked; EMakedirs "output" (Raise (FileError m))])
          | (Returns _, e2) =>
              match write_file outline_path text e2 with
              | (Fails m, e3) =>
                  (Raise (FileError m), mkWorld st (stdin w) e3,
                   [announce; asked; EMakedirs "output" (Ok tt);
                    EWrite outline_path text (Raise (FileError m))])
              | (Returns _, e3) =>
                  (Ok outline, mkWorld st (stdin w) e3,
                   [announce; asked; EMakedirs "output" (Ok tt);
                    EWrite outline_path text (Ok tt);
                    EPrint ("Guide outline created with "
                              +:+ str_of_nat (length (sections outline)) +:+ " sections")])
              end
          end
      end
  end.
Proof.
  unfold create_guide_outline, bind, print, call, modify_state, ret. simpl.
  destruct (llm_call _ _ _) as [[response|m] e1]; simpl; [|done].
  destruct (parse_outline response) as [[outline_dict outline]|e]; simpl; [|done].
  destruct (os_makedirs _ _) as [[[]|m] e2]; simpl; [|done].
  destruct (write_file _ _ _) as [[[]|m] e3]; simpl; done.
Qed.

(** ** The flow *)

(** The flow is its three steps in turn, each on the world the one before
    left and with the value it returned; the first exception ends it. *)
Lemma flow_kickoff_run w :
  flow_kickoff w =
  match get_user_input w with
  | (Ok state, w1, evs1) =>
      match create_guide_outline state w1 with
      | (Ok outline, w2, evs2) =>
          match write_and_compile_guide outline w2 with
          | (r, w3, evs3) => (r, w3, evs1 ++ evs2 ++ evs3)
          end
      | (Raise e, w2, evs2) => (Raise e, w2, evs1 ++ evs2)
      end
  | (Raise e, w1, evs1) => (Raise e, w1, evs1)
  end.
Proof.
  unfold flow_kickoff, bind.
  destruct (get_user_input w) as [[[state|e] w1] evs1]; [|done].
  destruct (create_guide_outline state w1) as [[[outline|e] w2] evs2]; [|done].
  by destruct (write_and_compile_guide outline w2) as [[r w3] evs3].
Qed.

(** ** The keys of [sections_content] *)

Lemma audience_loop_keeps lines w r w' evs :
  audience_loop lines w = (r, w', evs) →
  sections_content (self_state w') = sections_content (self_state w)
  ∧ guide_outline (self_state w') = guide_outline (self_state w).
Proof.
  revert r w' evs. induction lines as [|line lines IH]; intros r w' evs Hrun; simpl in Hrun.
  - by injection Hrun as <- <- <-.
  - case_bool_decide.
    + by injection Hrun as <- <- <-.
    + destruct (audience_loop lines w) as [[r1 w1] evs1].
      injection Hrun as <- <- <-. by eapply IH.
Qed.

Lemma get_user_input_keeps w r w' evs :
  get_user_input w = (r, w', evs) →
  sections_content (self_state w') = sections_content (self_state w)
  ∧ guide_outline (self_state w') = guide_outline (self_state w).
Proof.
  unfold get_user_input, bind, print, input, modify_state, ask_audience, get_state, ret.
  simpl. destruct (stdin w) as [|t lines]; simpl.
  - by intros [= <- <- <-].
  - destruct (audience_loop lines _) as [[[[]|e] w1] evs1] eqn:Hloop;
      apply audience_loop_keeps in Hloop; intros [= <- <- <-]; exact Hloop.
Qed.

Lemma create_guide_outline_returns state w outline w' evs :
  create_guide_outline state w = (Ok outline, w', evs) →
  self_state w' = set_guide_outline outline (self_state w).
Proof.
  rewrite create_guide_outline_run. cbv zeta.
  destruct (llm_call _ _ _) as [[response|m] e1]; [|done].
  destruct (parse_outline response) as [[outline_dict o]|e]; [|done].
  destruct (os_makedirs _ _) as [[[]|m] e2]; [|done].
  destruct (write_file _ _ _) as [[[]|m] e3]; [|done].
  by intros [= <- <- <-].
Qed.

Lemma loop_step_invariant outline point point' :
  loop_step point point' → loop_invariant outline point → loop_invariant outline point'.
Proof.
  intros Hstep (done & Hsplit & Houtline & Hdom).
  destruct Hstep as [section rest completed w completed' w' evs Hturn].
  rewrite process_section_run in Hturn.
  destruct (crew_kickoff _ _) as [[raw|m] e]; [|done].
  injection Hturn as <- <- <-. simpl in *.
  exists (done ++ [section]). split_and!.
  - by rewrite <- app_assoc.
  - done.
  - change (dom (<[Section_title section := raw]> (sections_content (self_state w)))
            = list_to_set (Section_title <$> done ++ [section])).
    rewrite dom_insert_L, Hdom, fmap_app, list_to_set_app_L. simpl.
    by rewrite union_empty_r_L, (comm_L (∪)).
Qed.

Lemma loop_reach_invariant outline point point' :
  rtc loop_step point point' → loop_invariant outline point → loop_invariant outline point'.
Proof. induction 1; eauto using loop_step_invariant. Qed.

(** A run of the loop that returns passes through its points turn by turn. *)
Lemma write_sections_reaches todo completed w completed' w' evs :
  write_sections todo completed w = (Ok completed', w', evs) →
  rtc loop_step (todo, completed, w) ([], completed', w').
Proof.
  revert completed w evs.
  induction todo as [|section rest IH]; intros completed w evs Hrun; simpl in Hrun.
  - injection Hrun as <- <- <-. apply rtc_refl.
  - unfold bind in Hrun.
    destruct (process_section section completed w) as [[[c1|e] w1] evs1] eqn:Hturn; [|done].
    destruct (write_sections rest c1 w1) as [[r2 w2] evs2] eqn:Hrest.
    injection Hrun as -> <- <-.
    eapply rtc_l; [by econstructor|]. by eapply IH.
Qed.

(** C4. In a run of the flow, the store is empty when the input collector
    and the outline generator have finished; at every point of the loop
    over the outline's sections the state holds this outline and every key
    of the store is the title of one of its sections; and when the loop has
    returned, which is when the document is assembled, the store holds a
    text under the title of every section. *)
Theorem content_keys_invariant lines e st outline w1 w2 evs1 evs2 :
  get_user_input (start_world lines e) = (Ok st, w1, evs1) →
  create_guide_outline st w1 = (Ok outline, w2, evs2) →
  sections_content (self_state w1) = ∅
  ∧ sections_content (self_state w2) = ∅
  ∧ (∀ todo completed w,
       rtc loop_step (sections outline, [], w2) (todo, completed, w) →
       guide_outline (self_state w) = Some outline
       ∧ dom (sections_content (self_state w))
         ⊆ list_to_set (Section_title <$> sections outline))
  ∧ (∀ completed w evs,
       write_sections (sections outline) [] w2 = (Ok completed, w, evs) →
       rtc loop_step (sections outline, [], w2) ([], completed, w)
       ∧ ∀ s, s ∈ sections outline →
           is_Some (sections_content (self_state w) !! Section_title s)).
Proof.
  intros Hinput Houtline.
  apply get_user_input_keeps in Hinput as [Hc1 _]. simpl in Hc1.
  apply create_guide_outline_returns in Houtline.
  assert (sections_content (self_state w2) = ∅) as Hc2 by (by rewrite Houtline).
  assert (loop_invariant outline (sections outline, [], w2)) as Hstart.
  { exists []. simpl. rewrite Houtline. simpl. rewrite Hc1. split_and!; [done|done|].
    by rewrite dom_empty_L. }
  split_and!; [done|done| |].
  - intros todo completed w Hreach.
    destruct (loop_reach_invariant _ _ _ Hreach Hstart) as (done & Hsplit & Hsame & Hdom).
    simpl in *. split; [done|]. rewrite Hdom, Hsplit, fmap_app, list_to_set_app_L.
    apply union_subseteq_l.
  - intros completed w evs Hrun.
    pose proof (write_sections_reaches _ _ _ _ _ _ Hrun) as Hreach. split; [done|].
    destruct (loop_reach_invariant _ _ _ Hreach Hstart) as (done & Hsplit & _ & Hdom).
    simpl in *. rewrite app_nil_r in Hsplit. subst done.
    intros s Hs. apply elem_of_dom. rewrite Hdom.
    apply elem_of_list_to_set, list_elem_of_fmap. by exists s.
Qed.

(** ** A failing crew run *)

Lemma kickoffs_loop_trace_ok audience authored completed content i inputs r :
  kickoffs (loop_trace audience authored completed content) !! i = Some (inputs, r) →
  ∃ raw, r = Ok raw.
Proof.
  intros Hi.
  pose proof (lookup_lt_Some _ _ _ Hi) as Hlt. rewrite kickoffs_loop_trace_length in Hlt.
  destruct (lookup_lt_is_Some_2 authored i Hlt) as [[s raw] Hs].
  rewrite (kickoffs_loop_trace_lookup _ _ _ _ _ _ _ Hs) in Hi.
  injection Hi as _ <-. by exists raw.
Qed.

(** C5. If a crew run of the step raises, the step raises the same
    exception, that run is the last one, it belongs to one of the
    outline's sections, and the step has made no file-system call at all:
    nothing of the sections already written leaves the process.  In any
    run, a file-system call of the step is the single write of the guide,
    and before it the loop has written every section of the outline. *)
Theorem failed_run_writes_nothing outline w res w' evs :
  write_and_compile_guide outline w = (res, w', evs) →
  (∀ i inputs e, kickoffs evs !! i = Some (inputs, Raise e) →
     res = Raise e
     ∧ file_events evs = []
     ∧ length (kickoffs evs) = S i
     ∧ i < length (sections outline))
  ∧ (file_events evs = []
     ∨ ∃ authored doc r tail,
         authored.*1 = sections outline
         ∧ evs = EPrint "Writing guide sections and compiling..."
                 :: loop_trace (audience_level (self_state w)) authored []
                      (sections_content (self_state w))
                 ++ EWrite guide_path doc r :: tail
         ∧ file_events evs = [EWrite guide_path doc r]
         ∧ kickoffs tail = []).
Proof.
  intros Hrun. rewrite write_and_compile_guide_run in Hrun.
  destruct (write_sections _ _ _) as [[[c|e0] w1] evs1] eqn:Hloop.
  - apply write_sections_returns in Hloop as (raws & Hlen & _ & Hw1 & ->).
    cbv zeta in Hrun.
    assert (∀ tail, kickoffs tail = [] → file_events tail = [] → ∀ r,
              evs = EPrint "Writing guide sections and compiling..."
                    :: loop_trace (audience_level (self_state w)) (zip (sections outline) raws) []
                         (sections_content (self_state w))
                    ++ EWrite guide_path
                         (compile_guide outline (sections_content (self_state w1))) r :: tail →
              (∀ i inputs e, kickoffs evs !! i = Some (inputs, Raise e) → False)
              ∧ file_events evs
                = [EWrite guide_path
                     (compile_guide outline (sections_content (self_state w1))) r]) as Hshape.
    { intros tail Hk Hf r ->. split.
      - intros i inputs e. simpl. rewrite kickoffs_app. simpl. rewrite Hk, app_nil_r.
        intros Hi. by destruct (kickoffs_loop_trace_ok _ _ _ _ _ _ _ Hi).
      - change (file_events (?a :: ?l)) with (file_events l).
        rewrite file_events_app, file_events_loop_trace.
        change (file_events (EWrite ?p ?d ?x :: ?l)) with (EWrite p d x :: file_events l).
        by rewrite Hf. }
    destruct (write_file _ _ _) as [[[]|m] e2]; injection Hrun as <- <- <-.
    + edestruct Hshape as [Hno Hfile]; [| |reflexivity|]; [done|done|].
      split; [intros i inputs e Hi; by destruct (Hno i inputs e)|].
      right. eexists _, _, _, _. split_and!; [|reflexivity|exact Hfile|done].
      apply fst_zip. lia.
    + edestruct Hshape as [Hno Hfile]; [| |reflexivity|]; [done|done|].
      split; [intros i inputs e Hi; by destruct (Hno i inputs e)|].
      right. eexists _, _, _, _. split_and!; [|reflexivity|exact Hfile|done].
      apply fst_zip. lia.
  - apply write_sections_raises in Hloop
      as (done & section & rest & raws & m & Hsplit & Hlen & -> & Hw1 & ->).
    injection Hrun as <- <- <-.
    assert (length (zip done raws) = length done) as Hzip
      by (rewrite length_zip; lia).
    split.
    + intros i inputs e. simpl. rewrite kickoffs_app. simpl. intros Hi.
      destruct (decide (i < length done)) as [Hlt|Hge].
      * rewrite lookup_app_l in Hi by (by rewrite kickoffs_loop_trace_length, Hzip).
        by destruct (kickoffs_loop_trace_ok _ _ _ _ _ _ _ Hi).
      * rewrite lookup_app_r in Hi by (rewrite kickoffs_loop_trace_length, Hzip; lia).
        rewrite kickoffs_loop_trace_length, Hzip in Hi.
        destruct (i - length done) as [|k] eqn:Hk; simpl in Hi; [|done].
        injection Hi as _ <-. assert (i = length done) as -> by lia.
        split_and!.
        -- done.
        -- change (file_events (?a :: ?l)) with (file_events l).
           by rewrite file_events_app, file_events_loop_trace.
        -- rewrite length_app, kickoffs_loop_trace_length, Hzip. simpl. lia.
        -- rewrite Hsplit, length_app. simpl. lia.
    + left. change (file_events (?a :: ?l)) with (file_events l).
      by rewrite file_events_app, file_events_loop_trace.
Qed.

(** ** Validation against the outline shape *)

Lemma validate_str_Some v text : validate_str v = Some text ↔ v = JStr text.
Proof. destruct v; simpl; split; congruence. Qed.

Lemma lookup_str_Some (d : gmap string json) key text :
  d !! key ≫= validate_str = Some text ↔ d !! key = Some (JStr text).
Proof.
  destruct (d !! key) as [v|]; simpl; [|split; congruence].
  rewrite validate_str_Some. split; congruence.
Qed.

Lemma Section_validate_shape v s : Section_validate v = Some s ↔ section_shape v s.
Proof.
  destruct s as [t desc]. unfold section_shape. simpl. split.
  - destruct v as [| | | | | |d]; try done. simpl. intros Hv.
    destruct (d !! "title" ≫= validate_str) as [t'|] eqn:Ht; [|done].
    destruct (d !! "description" ≫= validate_str) as [desc'|] eqn:Hd; [|done].
    simpl in Hv. injection Hv as -> ->.
    apply lookup_str_Some in Ht, Hd. by exists d.
  - intros (d & -> & Ht & Hd). apply lookup_str_Some in Ht, Hd.
    simpl. by rewrite Ht, Hd.
Qed.

Lemma validate_sections_shape (d : gmap string json) ss :
  d !! "sections" ≫= validate_sections = Some ss
  ↔ ∃ items, d !! "sections" = Some (JArr items) ∧ Forall2 section_shape items ss.
Proof.
  split.
  - destruct (d !! "sections") as [[| | | | |items|]|]; try done. simpl.
    intros Hm. exists items. split; [done|].
    apply mapM_Some in Hm. eapply Forall2_impl; [exact Hm|].
    intros v s. apply Section_validate_shape.
  - intros (items & -> & Hitems). simpl. apply mapM_Some.
    eapply Forall2_impl; [exact Hitems|]. intros v s. apply Section_validate_shape.
Qed.

(** The constructor accepts a value exactly when it has the outline shape,
    and then returns the outline the value describes. *)
Lemma GuideOutline_init_shape v o : GuideOutline_init v = Ok o ↔ outline_shape v o.
Proof.
  destruct o as [t i a ss c]. unfold outline_shape. simpl. split.
  - destruct v as [| | | | | |d]; try done. simpl.
    destruct (GuideOutline_validate d) as [o|] eqn:Hv; [|done].
    intros [= ->]. unfold GuideOutline_validate in Hv.
    destruct (d !! "title" ≫= validate_str) as [t'|] eqn:Ht; [|done].
    destruct (d !! "introduction" ≫= validate_str) as [i'|] eqn:Hi; [|done].
    destruct (d !! "target_audience" ≫= validate_str) as [a'|] eqn:Ha; [|done].
    destruct (d !! "sections" ≫= validate_sections) as [ss'|] eqn:Hs; [|done].
    destruct (d !! "conclusion" ≫= validate_str) as [c'|] eqn:Hc; [|done].
    simpl in Hv. injection Hv as -> -> -> -> ->.
    apply lookup_str_Some in Ht, Hi, Ha, Hc.
    apply validate_sections_shape in Hs as (items & Hs & Hitems).
    by exists d, items.
  - intros (d & items & -> & Ht & Hi & Ha & Hs & Hitems & Hc).
    apply lookup_str_Some in Ht, Hi, Ha, Hc.
    assert (d !! "sections" ≫= validate_sections = Some ss) as Hss
      by (apply validate_sections_shape; eauto).
    simpl. unfold GuideOutline_validate. rewrite Ht, Hi, Ha, Hss, Hc. done.
Qed.

Lemma GuideOutline_init_raises v e :
  GuideOutline_init v = Raise e → e = TypeError ∨ e = ValidationError.
Proof.
  destruct v as [| | | | | |d]; simpl; try (intros [= <-]; by left).
  destruct (GuideOutline_validate d); [done|]. intros [= <-]. by right.
Qed.

Lemma Section_validate_dump s : Section_validate (Section_dump s) = Some s.
Proof. destruct s as [t desc]. simpl. by lookup_literal. Qed.

(** The dictionary of an outline's fields validates to that outline. *)
Lemma GuideOutline_init_dump o : GuideOutline_init (GuideOutline_dump o) = Ok o.
Proof.
  destruct o as [t i a ss c]. unfold GuideOutline_init, GuideOutline_dump. simpl.
  unfold GuideOutline_validate.
  lookup_literal. simpl. lookup_literal. simpl. lookup_literal. simpl.
  lookup_literal. simpl.
  rewrite (mapM_fmap_Some _ _ _ Section_validate_dump). simpl.
  by lookup_literal.
Qed.

(** The outline file of a run that returns: the dictionary the model's
    answer parsed to, printed with indent 2; that dictionary is one of the
    returned outline. *)
Lemma create_guide_outline_file state w outline w' evs :
  create_guide_outline state w = (Ok outline, w', evs) →
  ∃ outline_dict,
    GuideOutline_init outline_dict = Ok outline
    ∧ file_events evs
      = [EMakedirs "output" (Ok tt);
         EWrite outline_path (json_dumps outline_dict 2) (Ok tt)].
Proof.
  rewrite create_guide_outline_run. cbv zeta.
  destruct (llm_call _ _ _) as [[response|m] e1]; [|done].
  unfold parse_outline.
  destruct (json_loads response) as [d|]; [|done].
  destruct (GuideOutline_init d) as [o|e] eqn:Hinit; [|done].
  destruct (os_makedirs _ _) as [[[]|m] e2]; [|done].
  destruct (write_file _ _ _) as [[[]|m] e3]; [|done].
  intros [= <- <- <-]. by exists d.
Qed.


(** C7. When the model has answered with a text, the generator raises one
    of the schema-validation failures exactly when the text does not parse
    to a value of the outline shape; then the state is as it was (no
    outline is stored) and no file-system call was made.  When the text
    parses to a value of the shape of an outline, that outline is stored
    whatever the number of its sections, and the step returns it unless a
    file-system call fails; and every outline, of any number of sections,
    is the shape of some value. *)
Theorem outline_validation state w response e1 :
  llm_call "openai/gpt-4o-mini" (outline_messages state) (env w) = (Returns response, e1) →
  ∀ res w' evs, create_guide_outline state w = (res, w', evs) →
  ((∃ e, res = Raise e ∧ schema_validation_failure e)
     ↔ ¬ ∃ d o, json_loads response = Some d ∧ outline_shape d o)
  ∧ (∀ e, res = Raise e → schema_validation_failure e →
       self_state w' = self_state w ∧ file_events evs = [])
  ∧ (∀ d o, json_loads response = Some d → outline_shape d o →
       guide_outline (self_state w') = Some o
       ∧ (res = Ok o ∨ ∃ m, res = Raise (FileError m)))
  ∧ (∀ o, outline_shape (GuideOutline_dump o) o).
Proof.
  intros Hllm res w' evs. rewrite create_guide_outline_run. cbv zeta. rewrite Hllm.
  unfold parse_outline, schema_validation_failure.
  assert (∀ o, outline_shape (GuideOutline_dump o) o) as Hdump
    by (intros o; apply GuideOutline_init_shape, GuideOutline_init_dump).
  destruct (json_loads response) as [d|] eqn:Hjson.
  - destruct (GuideOutline_init d) as [o|e] eqn:Hinit.
    + assert (∀ d' o', Some d = Some d' → outline_shape d' o' → o' = o) as Hsame.
      { intros d' o' [= <-] Hshape. apply GuideOutline_init_shape in Hshape. congruence. }
      apply GuideOutline_init_shape in Hinit.
      destruct (os_makedirs _ _) as [[[]|m] e2];
        [destruct (write_file _ _ _) as [[[]|m] e3]|];
        intros [= <- <- <-]; (split_and!; [split| | |done]).
      all: try (intros (e & [= <-] & [?|[?|?]]); done).
      all: try (intros Hno; destruct Hno; by exists d, o).
      all: try (intros e [= <-] [?|[?|?]]; done).
      all: intros d' o' Hd' Hshape; rewrite (Hsame d' o' Hd' Hshape); simpl; eauto.
    + intros [= <- <- <-]. split_and!; [split| | |done].
      * intros _ (d' & o' & [= <-] & Hshape).
        apply GuideOutline_init_shape in Hshape. congruence.
      * intros _. exists e. split; [done|].
        destruct (GuideOutline_init_raises _ _ Hinit) as [->| ->]; auto.
      * done.
      * intros d' o' [= <-] Hshape. apply GuideOutline_init_shape in Hshape. congruence.
  - intros [= <- <- <-]. split_and!; [split| | |done].
    + by intros _ (d & o & ? & _).
    + intros _. exists JSONDecodeError. auto.
    + done.
    + done.
Qed.

(** ** Two sections under one title *)

Lemma document_ext outline body1 body2 :
  (∀ s, s ∈ sections outline → body1 s = body2 s) →
  document outline body1 = document outline body2.
Proof.
  intros Hbody. unfold document.
  replace (map (fun s => LF2 +:+ body1 s +:+ LF2) (sections outline))
    with (map (fun s => LF2 +:+ body2 s +:+ LF2) (sections outline)); [done|].
  apply map_ext_in. intros s Hs. rewrite Hbody; [done|]. by apply list_elem_of_In.
Qed.

Lemma kickoffs_loop_trace_results audience authored completed content :
  (kickoffs (loop_trace audience authored completed content)).*2 = Ok <$> authored.*2.
Proof.
  revert completed content.
  induction authored as [|[s raw] authored IH]; intros completed content; simpl; [done|].
  f_equal. apply IH.
Qed.

(** A run of the step that returns, by the texts the crew returned. *)
Lemma write_and_compile_guide_returns outline w msg w' evs :
  write_and_compile_guide outline w = (Ok msg, w', evs) →
  ∃ authored,
    authored.*1 = sections outline
    ∧ Ok <$> authored.*2 = (kickoffs evs).*2
    ∧ sections_content (self_state w') = stored authored (sections_content (self_state w))
    ∧ file_events evs
      = [EWrite guide_path
           (document outline (fun s => default "" (last_authored authored (Section_title s))))
           (Ok tt)].
Proof.
  intros Hrun. rewrite write_and_compile_guide_run in Hrun.
  destruct (write_sections _ _ _) as [[[c|e] w1] evs1] eqn:Hloop; [|done].
  apply write_sections_returns in Hloop as (raws & Hlen & _ & Hw1 & ->).
  cbv zeta in Hrun.
  destruct (write_file _ _ _) as [[[]|m] e2]; [|done].
  injection Hrun as <- <- <-.
  assert ((zip (sections outline) raws).*1 = sections outline) as Hfst
    by (apply fst_zip; lia).
  exists (zip (sections outline) raws). split_and!.
  - done.
  - simpl. by rewrite kickoffs_app, app_nil_r, kickoffs_loop_trace_results.
  - simpl. by rewrite Hw1.
  - change (file_events (?a :: ?l)) with (file_events l).
    rewrite file_events_app, file_events_loop_trace, compile_guide_spec. simpl.
    do 2 f_equal. apply document_ext. intros s Hs.
    rewrite Hw1. simpl. rewrite stored_lookup.
    destruct (last_authored_is_Some (zip (sections outline) raws) s) as [raw ->]; [|done].
    by rewrite Hfst.
Qed.

Lemma stored_own authored content i s raw :
  authored !! i = Some (s, raw) →
  stored (take (S i) authored) content !! Section_title s = Some raw.
Proof.
  intros Hi. rewrite (take_S_r _ _ _ Hi), stored_snoc. apply lookup_insert_eq.
Qed.

(** The last run for a title is the run of the last section under it. *)
Lemma last_authored_last authored j s raw :
  authored !! j = Some (s, raw) →
  (∀ k p, j < k → authored !! k = Some p → Section_title p.1 ≠ Section_title s) →
  last_authored authored (Section_title s) = Some raw.
Proof.
  revert j. induction authored as [|[s0 raw0] authored IH]; intros j Hj Hlater; [done|].
  destruct j as [|j]; simpl in *.
  - injection Hj as -> ->.
    assert (last_authored authored (Section_title s) = None) as ->.
    { clear IH. induction authored as [|[s1 raw1] authored IH]; simpl; [done|].
      rewrite IH.
      - rewrite bool_decide_eq_false_2; [done|]. apply (Hlater 1 (s1, raw1)); [lia|done].
      - intros k p Hk Hp. destruct k as [|k]; [lia|].
        apply (Hlater (S (S k)) p); [lia|done]. }
    by rewrite bool_decide_eq_true_2.
  - rewrite (IH j Hj); [done|].
    intros k p Hk Hp. apply (Hlater (S k) p); [lia|done].
Qed.

(** C9. In a run that completes on an outline whose sections at positions
    [i < j] have the same title: once section [i] is written the store
    holds its text under the title; once section [j] is written the store
    holds the text of section [j] there instead, and no exception or event
    marks the replacement.  The document places, for every section, the
    text of the last run under that section's title; when no section after
    [j] has the title, both section [i] and section [j] are given the text
    of section [j]. *)
Theorem duplicate_titles_overwrite outline w msg w' evs i j si sj :
  write_and_compile_guide outline w = (Ok msg, w', evs) →
  sections outline !! i = Some si →
  sections outline !! j = Some sj →
  i < j →
  Section_title si = Section_title sj →
  ∃ authored rawi rawj,
    authored.*1 = sections outline
    ∧ Ok <$> authored.*2 = (kickoffs evs).*2
    ∧ authored !! i = Some (si, rawi)
    ∧ authored !! j = Some (sj, rawj)
    ∧ stored (take (S i) authored) (sections_content (self_state w)) !! Section_title si
      = Some rawi
    ∧ stored (take (S j) authored) (sections_content (self_state w)) !! Section_title si
      = Some rawj
    ∧ file_events evs
      = [EWrite guide_path
           (document outline (fun s => default "" (last_authored authored (Section_title s))))
           (Ok tt)]
    ∧ ((∀ k sk, j < k → sections outline !! k = Some sk →
          Section_title sk ≠ Section_title sj) →
       last_authored authored (Section_title si) = Some rawj
       ∧ last_authored authored (Section_title sj) = Some rawj).
Proof.
  intros Hrun Hi Hj Hlt Htitle.
  destruct (write_and_compile_guide_returns _ _ _ _ _ Hrun)
    as (authored & Hfst & Hraws & _ & Hfile).
  assert (∀ k s, sections outline !! k = Some s → ∃ raw, authored !! k = Some (s, raw))
    as Hat.
  { intros k s Hk. rewrite <- Hfst, list_lookup_fmap in Hk.
    destruct (authored !! k) as [[s' raw]|]; [|done].
    injection Hk as <-. by exists raw. }
  destruct (Hat i si Hi) as [rawi Hai]. destruct (Hat j sj Hj) as [rawj Haj].
  exists authored, rawi, rawj. split_and!; try done.
  - by apply stored_own.
  - rewrite Htitle. by apply stored_own.
  - intros Hlast.
    assert (last_authored authored (Section_title sj) = Some rawj) as Hsj.
    { apply (last_authored_last _ j); [done|].
      intros k [sk rawk] Hk Hak. apply (Hlast k sk Hk).
      by rewrite <- Hfst, list_lookup_fmap, Hak. }
    by rewrite Htitle.
Qed.

(** * Further facts *)

(** ** The input collector, whatever is typed *)

Lemma audience_loop_returns lines w w' evs :
  audience_loop lines w = (Ok tt, w', evs) →
  ∃ rejected v,
    lines = rejected ++ v :: stdin w'
    ∧ Forall (fun a => lower a ∉ audience_levels) rejected
    ∧ lower v ∈ audience_levels
    ∧ self_state w' = set_audience_level (lower v) (self_state w)
    ∧ env w' = env w.
Proof.
  revert w' evs. induction lines as [|line lines IH]; intros w' evs Hrun; simpl in Hrun; [done|].
  case_bool_decide as Hline.
  - injection Hrun as <- <-. exists [], line. by split_and!.
  - destruct (audience_loop lines w) as [[r1 w1] evs1] eqn:Hloop.
    injection Hrun as -> -> <-.
    destruct (IH _ _ eq_refl) as (rejected & v & -> & Hrej & Hv & Hst & Henv).
    exists (line :: rejected), v. split_and!; try done. by constructor.
Qed.

Lemma audience_loop_eof answers w :
  Forall (fun a => lower a ∉ audience_levels) answers →
  audience_loop answers w =
  (Raise EOFError, mkWorld (self_state w) [] (env w),
   rejections answers ++ [EInput audience_prompt (Raise EOFError)]).
Proof.
  induction 1 as [|a answers Ha _ IH]; [done|].
  by rewrite audience_loop_rejects, IH, app_assoc.
Qed.

Lemma get_user_input_accepted w st w' evs :
  get_user_input w = (Ok st, w', evs) →
  ∃ t rejected v,
    stdin w = t :: rejected ++ v :: stdin w'
    ∧ Forall (fun a => lower a ∉ audience_levels) rejected
    ∧ lower v ∈ audience_levels
    ∧ st = set_audience_level (lower v) (set_topic t (self_state w))
    ∧ audience_level st ∈ audience_levels
    ∧ self_state w' = st
    ∧ env w' = env w.
Proof.
  unfold get_user_input, bind, print, input, modify_state, ask_audience, get_state, ret.
  simpl. destruct (stdin w) as [|t lines]; simpl; [done|].
  destruct (audience_loop lines _) as [[[[]|e] w1] evs1] eqn:Hloop; [|done].
  intros [= <- <- <-].
  apply audience_loop_returns in Hloop as (rejected & v & -> & Hrej & Hv & Hst & Henv).
  simpl in *. exists t, rejected, v. rewrite Hst. by split_and!.
Qed.

(** X1. Whenever the collector returns, the lines it has read are the
    topic, answers that are no level in any letter case, and one answer
    that is; the stored level is one of the three words in lower case, the
    lines after the accepted answer are left unread, and nothing else of
    the state or of the outside world has changed. *)
Theorem get_user_input_returns w st w' evs :
  get_user_input w = (Ok st, w', evs) →
  ∃ t rejected v,
    stdin w = t :: rejected ++ v :: stdin w'
    ∧ Forall (fun a => lower a ∉ audience_levels) rejected
    ∧ lower v ∈ audience_levels
    ∧ st = set_audience_level (lower v) (set_topic t (self_state w))
    ∧ audience_level st ∈ audience_levels
    ∧ self_state w' = st
    ∧ env w' = env w.
Proof. apply get_user_input_accepted. Qed.

(** X2. When none of the lines after the first is a level, the collector
    raises [EOFError] with every line read: the first line, if there is
    one, is stored as the topic, the audience level is left as it was, and
    there was one audience prompt per answer and one more that met the end
    of the input. *)
Theorem get_user_input_eof w :
  Forall (fun a => lower a ∉ audience_levels) (tail (stdin w)) →
  ∃ evs,
    get_user_input w
    = (Raise EOFError,
       mkWorld match stdin w with
               | [] => self_state w
               | t :: _ => set_topic t (self_state w)
               end [] (env w),
       evs)
    ∧ List.filter is_audience_prompt evs
      = match stdin w with
        | [] => []
        | _ :: answers =>
            map (fun a => EInput audience_prompt (Ok a)) answers
            ++ [EInput audience_prompt (Raise EOFError)]
        end.
Proof.
  intros Hrej.
  unfold get_user_input, bind, print, input, modify_state, ask_audience, get_state, ret.
  simpl. destruct (stdin w) as [|t answers] eqn:Hin; simpl in *.
  - eexists. split; [destruct w; simpl in *; by subst|reflexivity].
  - rewrite (audience_loop_eof _ _ Hrej). simpl. eexists. split; [reflexivity|].
    cbn [List.filter is_audience_prompt].
    rewrite bool_decide_eq_false_2 by done.
    rewrite List.filter_app, audience_prompts_rejections.
    cbn [List.filter is_audience_prompt].
    by rewrite bool_decide_eq_true_2.
Qed.

(** ** The outline generator, when something fails *)

(** X3. Every run of the outline step calls the model exactly once, with
    the fixed model name and the two messages built from the state it was
    given: there is no second attempt.  When that call raises, the step
    raises the same failure, and it has neither changed the state nor
    touched the file system. *)
Theorem outline_single_model_call state w res w' evs :
  create_guide_outline state w = (res, w', evs) →
  ∃ r,
    List.filter is_llm_event evs
    = [ELLMCall "openai/gpt-4o-mini" (outline_messages state) r]
    ∧ (∀ m, r = Raise (LLMCallError m) →
         res = Raise (LLMCallError m)
         ∧ self_state w' = self_state w
         ∧ stdin w' = stdin w
         ∧ file_events evs = [])
    ∧ (∀ response, r = Ok response → ∀ m, res ≠ Raise (LLMCallError m)).
Proof.
  rewrite create_guide_outline_run. cbv zeta.
  destruct (llm_call _ _ _) as [[response|m] e1].
  - destruct (parse_outline response) as [[outline_dict outline]|e] eqn:Hparse.
    + destruct (os_makedirs _ _) as [[[]|m] e2];
        [destruct (write_file _ _ _) as [[[]|m] e3]|];
        intros [= <- <- <-]; eexists; (split_and!; [reflexivity|done|done]).
    + intros [= <- <- <-]. eexists. split_and!; [reflexivity|done|].
      intros ? _ m [= ->]. unfold parse_outline in Hparse.
      destruct (json_loads response) as [d|]; [|done].
      destruct (GuideOutline_init d) as [o|e'] eqn:Hinit; [done|].
      injection Hparse as ->.
      by destruct (GuideOutline_init_raises _ _ Hinit).
  - intros [= <- <- <-]. eexists. split_and!; [reflexivity| |done].
    by intros m' [= <-].
Qed.

(** X4. The outline is stored in the state before the directory is made
    and the file written: a run that raises a file failure has parsed the
    model's answer and holds its outline in the state.  When making the
    directory failed, no write was attempted; otherwise the failed call is
    the write of the outline file. *)
Theorem outline_stored_before_files state w m w' evs :
  create_guide_outline state w = (Raise (FileError m), w', evs) →
  ∃ response outline_dict outline,
    List.filter is_llm_event evs
    = [ELLMCall "openai/gpt-4o-mini" (outline_messages state) (Ok response)]
    ∧ parse_outline response = Ok (outline_dict, outline)
    ∧ self_state w' = set_guide_outline outline (self_state w)
    ∧ (file_events evs = [EMakedirs "output" (Raise (FileError m))]
       ∨ file_events evs
         = [EMakedirs "output" (Ok tt);
            EWrite outline_path (json_dumps outline_dict 2) (Raise (FileError m))]).
Proof.
  rewrite create_guide_outline_run. cbv zeta.
  destruct (llm_call _ _ _) as [[response|m1] e1]; [|done].
  destruct (parse_outline response) as [[outline_dict outline]|e] eqn:Hparse.
  - destruct (os_makedirs _ _) as [[[]|m2] e2];
      [destruct (write_file _ _ _) as [[[]|m3] e3]|];
      intros [= <- <- <-]; exists response, outline_dict, outline;
      split_and!; try done; auto.
  - intros [= -> <- <-]. unfold parse_outline in Hparse.
    destruct (json_loads response) as [d|]; [|done].
    destruct (GuideOutline_init d) as [o|e'] eqn:Hinit; [done|].
    injection Hparse as ->. by destruct (GuideOutline_init_raises _ _ Hinit).
Qed.

(** ** Validation, field by field *)

Lemma GuideOutline_init_object_raises d e :
  GuideOutline_init (JObj d) = Raise e → e = ValidationError.
Proof. simpl. destruct (GuideOutline_validate d); [done|]. by intros [= <-]. Qed.

(** X5. Each of the five fields is required and typed: a dictionary in
    which one of the four text fields is missing or is no JSON string, or
    in which [sections] is missing or is no JSON array, is turned down with
    a validation error. *)
Theorem outline_field_required d :
  (∃ k, k ∈ ["title"; "introduction"; "target_audience"; "conclusion"]
        ∧ ∀ text, d !! k ≠ Some (JStr text))
  ∨ (∀ items, d !! "sections" ≠ Some (JArr items)) →
  GuideOutline_init (JObj d) = Raise ValidationError.
Proof.
  intros Hbad.
  destruct (GuideOutline_init (JObj d)) as [o|e] eqn:Hinit.
  - exfalso. apply GuideOutline_init_shape in Hinit
      as (d' & items & [= <-] & Ht & Hi & Ha & Hs & _ & Hc).
    destruct Hbad as [(k & Hk & Hno)|Hno]; [|by eapply Hno].
    repeat (apply elem_of_cons in Hk as [->|Hk]; [by eapply Hno|]).
    by apply elem_of_nil in Hk.
  - by rewrite (GuideOutline_init_object_raises _ _ Hinit).
Qed.

(** X6. One element of [sections] that is no section turns the whole
    outline down: the sections that do validate are not kept. *)
Theorem outline_bad_section_rejected d items v :
  d !! "sections" = Some (JArr items) →
  v ∈ items →
  (∀ s, ¬ section_shape v s) →
  GuideOutline_init (JObj d) = Raise ValidationError.
Proof.
  intros Hs Hv Hno.
  destruct (GuideOutline_init (JObj d)) as [o|e] eqn:Hinit.
  - exfalso. apply GuideOutline_init_shape in Hinit
      as (d' & items' & [= <-] & _ & _ & _ & Hs' & Hitems & _).
    rewrite Hs in Hs'. injection Hs' as <-.
    apply list_elem_of_lookup in Hv as [i Hi].
    destruct (Forall2_lookup_l _ _ _ _ _ Hitems Hi) as (s & _ & Hshape).
    by apply (Hno s).
  - by rewrite (GuideOutline_init_object_raises _ _ Hinit).
Qed.

(** X7. Members under other names than the five fields do not matter: a
    dictionary and the same dictionary with such a member added or
    replaced give the same result, outline or failure. *)
Theorem outline_extra_member_ignored d k v :
  k ∉ ["title"; "introduction"; "target_audience"; "sections"; "conclusion"] →
  GuideOutline_init (JObj (<[k := v]> d)) = GuideOutline_init (JObj d).
Proof.
  intros Hk. simpl. unfold GuideOutline_validate.
  rewrite !lookup_insert_ne; [done|..]; intros ->; apply Hk; compute_done.
Qed.

(** ** The compile step: what it leaves alone *)

Lemma last_authored_None authored t :
  t ∉ Section_title <$> authored.*1 → last_authored authored t = None.
Proof.
  induction authored as [|[s raw] authored IH]; simpl; intros Ht; [done|].
  apply not_elem_of_cons in Ht as [Hne Ht]. rewrite (IH Ht).
  by rewrite bool_decide_eq_false_2.
Qed.

Lemma stored_keeps authored content k :
  is_Some (content !! k) → is_Some (stored authored content !! k).
Proof. rewrite stored_lookup. by destruct (last_authored authored k). Qed.

Lemma stored_other authored content k :
  k ∉ Section_title <$> authored.*1 → stored authored content !! k = content !! k.
Proof. intros Hk. by rewrite stored_lookup, last_authored_None. Qed.

(** Every run of the step ends in a world that is the starting one after
    some first sections of the outline were written. *)
Lemma write_and_compile_guide_world outline w res w' evs :
  write_and_compile_guide outline w = (res, w', evs) →
  ∃ done rest raws,
    sections outline = done ++ rest
    ∧ length raws = length done
    ∧ w' = after_sections (zip done raws) w (env w').
Proof.
  intros Hrun. rewrite write_and_compile_guide_run in Hrun.
  destruct (write_sections _ _ _) as [[[c|e0] w1] evs1] eqn:Hloop.
  - apply write_sections_returns in Hloop as (raws & Hlen & _ & Hw1 & _).
    exists (sections outline), [], raws. rewrite app_nil_r. split_and!; [done|done|].
    cbv zeta in Hrun.
    destruct (write_file _ _ _) as [[[]|m] e2]; injection Hrun as <- <- <-;
      by rewrite Hw1.
  - apply write_sections_raises in Hloop
      as (done & section & rest & raws & m & Hsplit & Hlen & _ & Hw1 & _).
    injection Hrun as <- <- <-. by exists done, (section :: rest), raws.
Qed.

(** X8. Whatever its outcome, the compile step reads no input line and
    changes nothing of the state but [sections_content]; there it removes
    no key, and it leaves the text under every key that is not the title
    of a section of the outline as it was. *)
Theorem compile_step_frame outline w res w' evs :
  write_and_compile_guide outline w = (res, w', evs) →
  topic (self_state w') = topic (self_state w)
  ∧ audience_level (self_state w') = audience_level (self_state w)
  ∧ guide_outline (self_state w') = guide_outline (self_state w)
  ∧ stdin w' = stdin w
  ∧ (∀ k, is_Some (sections_content (self_state w) !! k) →
          is_Some (sections_content (self_state w') !! k))
  ∧ (∀ k, k ∉ Section_title <$> sections outline →
          sections_content (self_state w') !! k = sections_content (self_state w) !! k).
Proof.
  intros Hrun.
  destruct (write_and_compile_guide_world _ _ _ _ _ Hrun)
    as (done & rest & raws & Hsplit & Hlen & ->).
  simpl. split_and!; try done.
  - intros k. apply stored_keeps.
  - intros k Hk. apply stored_other. rewrite fst_zip by lia.
    intros Hin. apply Hk. rewrite Hsplit, fmap_app. apply elem_of_app. by left.
Qed.

(** X9. On an outline without sections the step runs no crew and leaves
    the state as it is; its one file-system call is the write of a guide
    made of the title, the introduction and the conclusion blocks, and the
    step returns when that write does. *)
Theorem compile_empty_outline outline w res w' evs :
  sections outline = [] →
  write_and_compile_guide outline w = (res, w', evs) →
  kickoffs evs = []
  ∧ self_state w' = self_state w
  ∧ ∃ r,
      file_events evs
      = [EWrite guide_path
           ("# " +:+ title outline +:+ LF2
              +:+ "## Introduction" +:+ LF2 +:+ introduction outline +:+ LF2
              +:+ "## Conclusion" +:+ LF2 +:+ conclusion outline +:+ LF2)
           r]
      ∧ (r = Ok tt → res = Ok "Guide creation completed successfully").
Proof.
  intros Hempty. rewrite write_and_compile_guide_run, Hempty. simpl.
  assert (compile_guide outline (sections_content (self_state w))
          = "# " +:+ title outline +:+ LF2
              +:+ "## Introduction" +:+ LF2 +:+ introduction outline +:+ LF2
              +:+ "## Conclusion" +:+ LF2 +:+ conclusion outline +:+ LF2) as ->.
  { rewrite compile_guide_spec. unfold document. by rewrite Hempty. }
  destruct (write_file _ _ _) as [[[]|m] e2]; intros [= <- <- <-];
    (split_and!; [done|done|eexists; split; [reflexivity|done]]).
Qed.

Lemma map_fst_snd_ext {A B C} (f : A → C) (g : B → C) (l : list (A * B)) :
  (∀ i a b, l !! i = Some (a, b) → f a = g b) → map f l.*1 = map g l.*2.
Proof.
  induction l as [|[a b] l IH]; intros Hfg; simpl; [done|].
  rewrite (Hfg 0 a b eq_refl). f_equal. apply IH.
  intros i a' b' Hi. by apply (Hfg (S i)).
Qed.

(** X10. When the titles of the outline's sections are pairwise distinct,
    a run that completes writes a guide whose bodies are the texts the crew
    runs returned, each section's own, in the order of the runs, and the
    store ends up holding each section's own text under its title. *)
Theorem distinct_titles_document outline w msg w' evs :
  write_and_compile_guide outline w = (Ok msg, w', evs) →
  NoDup (Section_title <$> sections outline) →
  ∃ raws,
    Ok <$> raws = (kickoffs evs).*2
    ∧ length raws = length (sections outline)
    ∧ file_events evs
      = [EWrite guide_path
           ("# " +:+ title outline +:+ LF2
              +:+ "## Introduction" +:+ LF2 +:+ introduction outline +:+ LF2
              +:+ join (map (fun raw => LF2 +:+ raw +:+ LF2) raws)
              +:+ "## Conclusion" +:+ LF2 +:+ conclusion outline +:+ LF2)
           (Ok tt)]
    ∧ ∀ i s raw, sections outline !! i = Some s → raws !! i = Some raw →
        sections_content (self_state w') !! Section_title s = Some raw.
Proof.
  intros Hrun Hnd.
  destruct (write_and_compile_guide_returns _ _ _ _ _ Hrun)
    as (authored & Hfst & Hraws & Hstore & Hfile).
  assert (∀ i s raw, authored !! i = Some (s, raw) →
            last_authored authored (Section_title s) = Some raw) as Hown.
  { intros i s raw Hi. apply (last_authored_NoDup _ i); [|done]. by rewrite Hfst. }
  exists authored.*2. split_and!.
  - done.
  - by rewrite <- Hfst, !length_fmap.
  - rewrite Hfile. unfold document. rewrite <- Hfst.
    rewrite (map_fst_snd_ext
               (fun s => LF2 +:+ default "" (last_authored authored (Section_title s)) +:+ LF2)
               (fun raw => LF2 +:+ raw +:+ LF2)); [done|].
    intros i s raw Hi. by rewrite (Hown i s raw Hi).
  - intros i s raw Hs Hraw. rewrite Hstore, stored_lookup.
    rewrite list_lookup_fmap in Hraw. rewrite <- Hfst, list_lookup_fmap in Hs.
    destruct (authored !! i) as [[s' raw']|] eqn:Hi; [|done].
    simpl in *. injection Hs as <-. injection Hraw as <-.
    by rewrite (Hown i s' raw' Hi).
Qed.

(** X11. When the write of the guide fails, the step raises that failure
    with every section written: the crew has run once per section, the
    state holds all the texts, the failed write is the step's only
    file-system call and its last event, so the line announcing the saved
    guide is not printed. *)
Theorem guide_write_failure outline w m w' evs :
  write_and_compile_guide outline w = (Raise (FileError m), w', evs) →
  ∃ authored,
    authored.*1 = sections outline
    ∧ Ok <$> authored.*2 = (kickoffs evs).*2
    ∧ sections_content (self_state w') = stored authored (sections_content (self_state w))
    ∧ file_events evs
      = [EWrite guide_path (compile_guide outline (sections_content (self_state w')))
           (Raise (FileError m))]
    ∧ last evs
      = Some (EWrite guide_path (compile_guide outline (sections_content (self_state w')))
                (Raise (FileError m))).
Proof.
  intros Hrun. rewrite write_and_compile_guide_run in Hrun.
  destruct (write_sections _ _ _) as [[[c|e] w1] evs1] eqn:Hloop.
  - apply write_sections_returns in Hloop as (raws & Hlen & _ & Hw1 & ->).
    cbv zeta in Hrun.
    destruct (write_file _ _ _) as [[[]|m'] e2]; [done|].
    injection Hrun as -> <- <-.
    exists (zip (sections outline) raws). simpl. split_and!.
    + apply fst_zip. lia.
    + by rewrite kickoffs_app, app_nil_r, kickoffs_loop_trace_results.
    + by rewrite Hw1.
    + change (file_events (?a :: ?l)) with (file_events l).
      by rewrite file_events_app, file_events_loop_trace.
    + by rewrite app_comm_cons, last_snoc.
  - apply write_sections_raises in Hloop as (? & ? & ? & ? & m' & _ & _ & -> & _).
    by injection Hrun.
Qed.

(** ** How the context grows *)

Lemma fst_snd_eq {A B} (l k : list (A * B)) : l.*1 = k.*1 → l.*2 = k.*2 → l = k.
Proof. intros H1 H2. by rewrite <- (zip_fst_snd l), <- (zip_fst_snd k), H1, H2. Qed.

Lemma render_context_snoc completed t content :
  render_context (completed ++ [t]) content
  = ("# Previously Written Sections" +:+ LF2
       +:+ join (map (fun t => "## " +:+ t +:+ LF2 +:+ default "" (content !! t) +:+ LF2)
                   completed))
    +:+ "## " +:+ t +:+ LF2 +:+ default "" (content !! t) +:+ LF2.
Proof.
  unfold render_context. destruct (completed ++ [t]) as [|t0 l] eqn:Hl.
  - by destruct completed.
  - rewrite <- Hl, map_app, join_app. simpl.
    by rewrite append_empty_r, !append_assoc.
Qed.

(** X12. When the titles of the outline's sections are pairwise distinct,
    the context of each crew run after the first is the context of the run
    before it followed by the block of the section that run wrote: its
    title as a heading and the text the run returned.  For the second run
    the heading line takes the place of the sentence that says nothing was
    written yet. *)
Theorem context_grows outline w res w' evs i inputs raw inputs' r' :
  write_and_compile_guide outline w = (res, w', evs) →
  NoDup (Section_title <$> sections outline) →
  kickoffs evs !! i = Some (inputs, Ok raw) →
  kickoffs evs !! S i = Some (inputs', r') →
  ∃ s ctx,
    sections outline !! i = Some s
    ∧ inputs !! "previous_sections" = Some ctx
    ∧ inputs' !! "previous_sections"
      = Some (match i with
              | 0 => "# Previously Written Sections" +:+ LF2
              | S _ => ctx
              end +:+ "## " +:+ Section_title s +:+ LF2 +:+ raw +:+ LF2).
Proof.
  intros Hrun Hnd Hi Hi'.
  pose proof (write_and_compile_guide_loop_kickoffs outline w) as Hk.
  rewrite Hrun in Hk. simpl in Hk. rewrite Hk in Hi, Hi'.
  destruct (write_sections (sections outline) [] w) as [[r1 w1] evs1] eqn:Hloop.
  simpl in Hi, Hi'.
  destruct (write_sections_kickoff_lookup _ _ _ _ _ _ _ _ _ Hloop Hi)
    as (a & s & Hfst & Hs & Hraws & ->).
  destruct (write_sections_kickoff_lookup _ _ _ _ _ _ _ _ _ Hloop Hi')
    as (a' & s' & Hfst' & Hs' & Hraws' & ->).
  assert (a' = a ++ [(s, raw)]) as ->.
  { apply fst_snd_eq.
    - by rewrite Hfst', (take_S_r _ _ _ Hs), fmap_app, Hfst.
    - assert (Inj (=) (=) (@Ok string)) as HOk by (by intros ?? [=]).
      apply (inj (fmap Ok)).
      by rewrite Hraws', (take_S_r _ _ _ Hi), !fmap_app, Hraws. }
  assert (Section_title s ∉ Section_title <$> a.*1) as Hfresh.
  { rewrite <- (take_drop (S i) (sections outline)), fmap_app in Hnd.
    apply NoDup_app in Hnd as [Hnd _].
    rewrite (take_S_r _ _ _ Hs), fmap_app, <- Hfst in Hnd.
    apply NoDup_app in Hnd as (_ & Hnot & _).
    intros Hin. apply (Hnot _ Hin). simpl. apply list_elem_of_here. }
  exists s, (render_context (Section_title <$> a.*1)
               (stored a (sections_content (self_state w)))).
  split_and!; [done|by rewrite kickoff_inputs_previous_sections, previous_sections_text_spec|].
  rewrite kickoff_inputs_previous_sections, previous_sections_text_spec. f_equal. simpl.
  rewrite !fmap_app. simpl. rewrite render_context_snoc, stored_snoc. simpl.
  rewrite lookup_insert_eq. simpl.
  replace (map (fun t => "## " +:+ t +:+ LF2
                   +:+ default "" (<[Section_title s := raw]>
                                     (stored a (sections_content (self_state w))) !! t)
                   +:+ LF2)
             (Section_title <$> a.*1))
    with (map (fun t => "## " +:+ t +:+ LF2
                   +:+ default "" (stored a (sections_content (self_state w)) !! t)
                   +:+ LF2)
            (Section_title <$> a.*1)).
  2:{ apply map_ext_in. intros t Ht. rewrite lookup_insert_ne; [done|].
      intros <-. apply Hfresh. by apply list_elem_of_In. }
  assert (length a = i) as Hlen.
  { rewrite <- (length_fmap fst), Hfst, length_take.
    apply lookup_lt_Some in Hs. lia. }
  destruct i as [|i].
  - destruct a; [|done]. simpl. by rewrite append_empty_r.
  - destruct a as [|p a]; [done|]. reflexivity.
Qed.

(** ** What the store held before *)

Lemma previous_sections_text_ext completed content1 content2 :
  (∀ t, t ∈ completed → content1 !! t = content2 !! t) →
  previous_sections_text completed content1 = previous_sections_text completed content2.
Proof.
  intros Hagree. rewrite !previous_sections_text_spec. unfold render_context.
  destruct completed as [|t0 l]; [done|]. do 3 f_equal.
  apply map_ext_in. intros t Ht. rewrite Hagree; [done|]. by apply list_elem_of_In.
Qed.

(** Two worlds that differ only in the store, and there only under titles
    not yet completed, take the loop through the same events to the same
    outcome. *)
Lemma write_sections_agree todo completed w1 w2 :
  env w1 = env w2 →
  audience_level (self_state w1) = audience_level (self_state w2) →
  (∀ t, t ∈ completed → sections_content (self_state w1) !! t
                        = sections_content (self_state w2) !! t) →
  (write_sections todo completed w1).1.1 = (write_sections todo completed w2).1.1
  ∧ (write_sections todo completed w1).2 = (write_sections todo completed w2).2
  ∧ env (write_sections todo completed w1).1.2 = env (write_sections todo completed w2).1.2
  ∧ (∀ t, t ∈ completed ++ (Section_title <$> todo) →
       (write_sections todo completed w1).1.1 = Ok (completed ++ (Section_title <$> todo)) →
       sections_content (self_state (write_sections todo completed w1).1.2) !! t
       = sections_content (self_state (write_sections todo completed w2).1.2) !! t).
Proof.
  revert completed w1 w2.
  induction todo as [|section rest IH]; intros completed w1 w2 Henv Haud Hagree.
  - simpl. split_and!; try done. intros t Ht _. apply Hagree. by rewrite app_nil_r in Ht.
  - simpl. unfold bind. rewrite !process_section_run. unfold inputs_at.
    rewrite <- Haud, <- Henv, <- (previous_sections_text_ext _ _ _ Hagree).
    destruct (crew_kickoff _ _) as [[raw|m] e]; [|done].
    specialize (IH (completed ++ [Section_title section])
                  (after_sections [(section, raw)] w1 e)
                  (after_sections [(section, raw)] w2 e) eq_refl Haud).
    destruct IH as (Hres & Hevs & Henv' & Hstore).
    { intros t Ht. simpl. apply elem_of_app in Ht as [Ht|Ht].
      - destruct (decide (Section_title section = t)) as [->|Hne].
        + by rewrite !lookup_insert_eq.
        + rewrite !lookup_insert_ne by done. by apply Hagree.
      - apply list_elem_of_singleton in Ht as ->. by rewrite !lookup_insert_eq. }
    destruct (write_sections rest _ (after_sections _ w1 _)) as [[r1 w1'] evs1].
    destruct (write_sections rest _ (after_sections _ w2 _)) as [[r2 w2'] evs2].
    simpl in *. subst. split_and!; try done.
    intros t Ht Hok. apply Hstore.
    + by rewrite <- app_assoc.
    + by rewrite <- app_assoc.
Qed.

(** X13. What [sections_content] holds when the compile step starts has no
    part in what the step does: started with any other store in its place,
    it makes the same calls with the same arguments, writes the same guide
    and has the same outcome. *)
Theorem stale_content_never_read outline w content2 :
  (write_and_compile_guide outline w).1.1
  = (write_and_compile_guide outline (with_content content2 w)).1.1
  ∧ (write_and_compile_guide outline w).2
    = (write_and_compile_guide outline (with_content content2 w)).2
  ∧ env (write_and_compile_guide outline w).1.2
    = env (write_and_compile_guide outline (with_content content2 w)).1.2.
Proof.
  rewrite !write_and_compile_guide_run.
  destruct (write_sections_agree (sections outline) [] w (with_content content2 w))
    as (Hres & Hevs & Henv & Hstore); [done|done|by intros t Ht; apply elem_of_nil in Ht|].
  destruct (write_sections _ _ w) as [[r1 w1] evs1] eqn:Hloop1.
  destruct (write_sections _ _ (with_content _ _)) as [[r2 w2] evs2].
  simpl in *. subst r2 evs2.
  destruct r1 as [c|e]; [|done].
  apply write_sections_returns in Hloop1 as (_ & _ & -> & _ & _).
  assert (compile_guide outline (sections_content (self_state w1))
          = compile_guide outline (sections_content (self_state w2))) as ->.
  { apply compile_guide_ext. intros s Hs. apply Hstore; [|done].
    simpl. apply list_elem_of_fmap. by exists s. }
  rewrite Henv. cbv zeta.
  by destruct (write_file _ _ _) as [[[]|m] e2].
Qed.

(** ** The three steps together *)

Lemma audience_loop_console lines w :
  Forall (fun ev => is_console_event ev = true) (audience_loop lines w).2.
Proof.
  induction lines as [|line lines IH]; simpl; [by repeat constructor|].
  case_bool_decide; [by repeat constructor|].
  destruct (audience_loop lines w) as [[r w'] evs]. by repeat constructor.
Qed.

Lemma get_user_input_console w :
  Forall (fun ev => is_console_event ev = true) (get_user_input w).2.
Proof.
  unfold get_user_input, bind, print, input, modify_state, ask_audience, get_state, ret.
  simpl. destruct (stdin w) as [|t lines]; simpl; [by repeat constructor|].
  pose proof (audience_loop_console lines
                (mkWorld (set_topic t (self_state w)) lines (env w))) as Hloop.
  destruct (audience_loop lines _) as [[[[]|e] w1] evs1]; simpl in *.
  - repeat constructor. apply Forall_app. split; [done|by repeat constructor].
  - by repeat constructor.
Qed.

Lemma console_events_only evs :
  Forall (fun ev => is_console_event ev = true) evs →
  kickoffs evs = [] ∧ file_events evs = [] ∧ List.filter is_llm_event evs = [].
Proof.
  induction 1 as [|ev evs Hev _ IH]; [done|].
  destruct IH as (Hk & Hf & Hl). by destruct ev.
Qed.

Lemma llm_events_loop_trace audience authored completed content :
  List.filter is_llm_event (loop_trace audience authored completed content) = [].
Proof.
  revert completed content.
  induction authored as [|[s raw] authored IH]; intros completed content; simpl; [done|].
  apply IH.
Qed.

Lemma write_and_compile_guide_no_llm outline w :
  List.filter is_llm_event (write_and_compile_guide outline w).2 = [].
Proof.
  rewrite write_and_compile_guide_run.
  destruct (write_sections _ _ _) as [[[c|e] w1] evs1] eqn:Hloop.
  - apply write_sections_returns in Hloop as (raws & _ & _ & _ & ->). cbv zeta.
    destruct (write_file _ _ _) as [[[]|m] e2]; simpl;
      by rewrite List.filter_app, llm_events_loop_trace.
  - apply write_sections_raises in Hloop as (? & ? & ? & ? & ? & _ & _ & _ & _ & ->).
    simpl. by rewrite List.filter_app, llm_events_loop_trace.
Qed.

(** The outline step when it returns. *)
Lemma create_guide_outline_ok state w outline w' evs :
  create_guide_outline state w = (Ok outline, w', evs) →
  ∃ response outline_dict,
    parse_outline response = Ok (outline_dict, outline)
    ∧ self_state w' = set_guide_outline outline (self_state w)
    ∧ stdin w' = stdin w
    ∧ evs = [EPrint "Creating guide outline...";
             ELLMCall "openai/gpt-4o-mini" (outline_messages state) (Ok response);
             EMakedirs "output" (Ok tt);
             EWrite outline_path (json_dumps outline_dict 2) (Ok tt);
             EPrint ("Guide outline created with "
                       +:+ str_of_nat (length (sections outline)) +:+ " sections")].
Proof.
  rewrite create_guide_outline_run. cbv zeta.
  destruct (llm_call _ _ _) as [[response|m] e1]; [|done].
  destruct (parse_outline response) as [[outline_dict o]|e] eqn:Hparse; [|done].
  destruct (os_makedirs _ _) as [[[]|m] e2]; [|done].
  destruct (write_file _ _ _) as [[[]|m] e3]; [|done].
  intros [= <- <- <-]. by exists response, outline_dict.
Qed.

Lemma kickoff_inputs_audience_level section audience text :
  kickoff_inputs section audience text !! "audience_level" = Some audience.
Proof. unfold kickoff_inputs. by simplify_map_eq. Qed.

(** X14. A run of the whole flow that returns has read a topic and, after
    any answers that are no level, a level; it has called the model once,
    with the messages built from that topic and the level in lower case;
    the outline it holds is the one the answer parsed to; the crew has run
    once per section of that outline, every time with that level as its
    audience; and the file-system calls are, in this order, the making of
    the output directory, the write of the outline file and the write of
    the guide compiled from the final store. *)
Theorem flow_returns w msg w' evs :
  flow_kickoff w = (Ok msg, w', evs) →
  ∃ t rejected v response outline_dict outline,
    stdin w = t :: rejected ++ v :: stdin w'
    ∧ lower v ∈ audience_levels
    ∧ topic (self_state w') = t
    ∧ audience_level (self_state w') = lower v
    ∧ guide_outline (self_state w') = Some outline
    ∧ parse_outline response = Ok (outline_dict, outline)
    ∧ List.filter is_llm_event evs
      = [ELLMCall "openai/gpt-4o-mini"
           (outline_messages (set_audience_level (lower v) (set_topic t (self_state w))))
           (Ok response)]
    ∧ length (kickoffs evs) = length (sections outline)
    ∧ (∀ i inputs r, kickoffs evs !! i = Some (inputs, r) →
         inputs !! "audience_level" = Some (lower v))
    ∧ file_events evs
      = [EMakedirs "output" (Ok tt);
         EWrite outline_path (json_dumps outline_dict 2) (Ok tt);
         EWrite guide_path (compile_guide outline (sections_content (self_state w')))
           (Ok tt)].
Proof.
  rewrite flow_kickoff_run.
  pose proof (get_user_input_console w) as Hconsole.
  destruct (get_user_input w) as [[[state|e] w1] evs1] eqn:Hinput; [|done].
  apply console_events_only in Hconsole as (Hk1 & Hf1 & Hl1). simpl in *.
  apply get_user_input_accepted in Hinput
    as (t & rejected & v & Hin & _ & Hv & Hstate & _ & Hst1 & _).
  destruct (create_guide_outline state w1) as [[[outline|e] w2] evs2] eqn:Houtline; [|done].
  apply create_guide_outline_ok in Houtline as (response & d & Hparse & Hst2 & Hin2 & ->).
  rewrite write_and_compile_guide_run.
  destruct (write_sections _ _ _) as [[[c|e] w3] evs3] eqn:Hloop; [|done].
  apply write_sections_returns in Hloop as (raws & Hlen & _ & Hw3 & ->).
  cbv zeta.
  destruct (write_file _ _ _) as [[[]|m] e4]; [|done].
  intros [= <- <- <-].
  assert (length (zip (sections outline) raws) = length (sections outline)) as Hzip
    by (rewrite length_zip; lia).
  exists t, rejected, v, response, d, outline. simpl. rewrite Hw3. simpl.
  rewrite Hst2. simpl. rewrite Hst1, Hstate, Hin2. simpl.
  split_and!; try done.
  - rewrite !List.filter_app, Hl1. simpl.
    by rewrite List.filter_app, llm_events_loop_trace.
  - rewrite !kickoffs_app, Hk1. simpl.
    by rewrite kickoffs_app, app_nil_r, kickoffs_loop_trace_length.
  - intros i inputs r. rewrite !kickoffs_app, Hk1. simpl.
    rewrite kickoffs_app, app_nil_r. intros Hi.
    pose proof (lookup_lt_Some _ _ _ Hi) as Hlt.
    rewrite kickoffs_loop_trace_length in Hlt.
    destruct (lookup_lt_is_Some_2 _ _ Hlt) as [[s raw] Hs].
    rewrite (kickoffs_loop_trace_lookup _ _ _ _ _ _ _ Hs) in Hi.
    injection Hi as <- _. apply kickoff_inputs_audience_level.
  - rewrite !file_events_app, Hf1. simpl.
    change (file_events (?a :: ?l)) with (file_events l).
    by rewrite file_events_app, file_events_loop_trace.
Qed.

Lemma audience_loop_raises lines w e w' evs :
  audience_loop lines w = (Raise e, w', evs) → e = EOFError.
Proof.
  revert w' evs. induction lines as [|line lines IH]; intros w' evs; simpl.
  - by intros [= <- _ _].
  - case_bool_decide; [done|].
    destruct (audience_loop lines w) as [[r1 w1] evs1]. intros [= -> _ _]. by eapply IH.
Qed.

Lemma get_user_input_raises w e w' evs :
  get_user_input w = (Raise e, w', evs) → e = EOFError.
Proof.
  unfold get_user_input, bind, print, input, modify_state, ask_audience, get_state, ret.
  simpl. destruct (stdin w) as [|t lines]; simpl; [by intros [= <- _ _]|].
  destruct (audience_loop lines _) as [[[[]|e1] w1] evs1] eqn:Hloop; [done|].
  intros [= <- _ _]. by eapply audience_loop_raises.
Qed.

(** The outline step when it raises: the model's failure, a schema
    failure on its answer, or a file failure. *)
Lemma create_guide_outline_raises state w e w' evs :
  create_guide_outline state w = (Raise e, w', evs) →
  ((∃ m, e = LLMCallError m) ∨ schema_validation_failure e)
  ∧ self_state w' = self_state w
  ∧ kickoffs evs = [] ∧ file_events evs = []
  ∧ length (List.filter is_llm_event evs) = 1
  ∨ (∃ m, e = FileError m) ∧ kickoffs evs = [].
Proof.
  rewrite create_guide_outline_run. cbv zeta. unfold schema_validation_failure.
  destruct (llm_call _ _ _) as [[response|m] e1].
  - unfold parse_outline. destruct (json_loads response) as [d|].
    + destruct (GuideOutline_init d) as [o|e0] eqn:Hinit.
      * destruct (os_makedirs _ _) as [[[]|m] e2];
          [destruct (write_file _ _ _) as [[[]|m] e3]|];
          intros [= <- <- <-]; right; eauto.
      * intros [= <- <- <-]. left. split_and!; try done. right.
        destruct (GuideOutline_init_raises _ _ Hinit) as [->| ->]; auto.
    + intros [= <- <- <-]. left. split_and!; try done. auto.
  - intros [= <- <- <-]. left. split_and!; try done. eauto.
Qed.

(** The compile step when it raises: a crew run, before any file-system
    call, or the write of the guide. *)
Lemma write_and_compile_guide_raises outline w e w' evs :
  write_and_compile_guide outline w = (Raise e, w', evs) →
  (∃ m, e = CrewError m) ∧ file_events evs = [] ∨ (∃ m, e = FileError m).
Proof.
  rewrite write_and_compile_guide_run.
  destruct (write_sections _ _ _) as [[[c|e0] w1] evs1] eqn:Hloop.
  - cbv zeta. destruct (write_file _ _ _) as [[[]|m] e2]; [done|].
    intros [= <- _ _]. right. eauto.
  - apply write_sections_raises in Hloop as (? & ? & ? & ? & m & _ & _ & -> & _ & ->).
    intros [= <- _ <-]. left. split; [eauto|].
    change (file_events (?a :: ?l)) with (file_events l).
    by rewrite file_events_app, file_events_loop_trace.
Qed.

Lemma write_and_compile_guide_keeps_outline outline w res w' evs :
  write_and_compile_guide outline w = (res, w', evs) →
  guide_outline (self_state w') = guide_outline (self_state w).
Proof.
  intros Hrun.
  by destruct (write_and_compile_guide_world _ _ _ _ _ Hrun) as (? & ? & ? & _ & _ & ->).
Qed.

(** X15. What a failed run of the flow has done, by the exception it
    raises.  [EOFError]: no model call, no crew run, no file-system call.
    The model's failure or a schema failure on its answer: one model call,
    no crew run, no file-system call, and no outline stored.  A crew
    failure: the model was called once and the outline file was written
    before, and the guide was not. *)
Theorem flow_failure_by_stage w e w' evs :
  flow_kickoff w = (Raise e, w', evs) →
  (e = EOFError →
     List.filter is_llm_event evs = [] ∧ kickoffs evs = [] ∧ file_events evs = [])
  ∧ ((∃ m, e = LLMCallError m) ∨ schema_validation_failure e →
     length (List.filter is_llm_event evs) = 1
     ∧ kickoffs evs = [] ∧ file_events evs = []
     ∧ guide_outline (self_state w') = guide_outline (self_state w))
  ∧ ((∃ m, e = CrewError m) →
     length (List.filter is_llm_event evs) = 1
     ∧ ∃ outline outline_dict,
         guide_outline (self_state w') = Some outline
         ∧ file_events evs
           = [EMakedirs "output" (Ok tt);
              EWrite outline_path (json_dumps outline_dict 2) (Ok tt)]).
Proof.
  rewrite flow_kickoff_run. unfold schema_validation_failure.
  pose proof (get_user_input_console w) as Hconsole.
  destruct (get_user_input w) as [[[state|e1] w1] evs1] eqn:Hinput.
  - apply console_events_only in Hconsole as (Hk1 & Hf1 & Hl1). simpl in *.
    pose proof (get_user_input_keeps _ _ _ _ Hinput) as [_ Hkeep].
    destruct (create_guide_outline state w1) as [[[outline|e2] w2] evs2] eqn:Houtline.
    + pose proof (create_guide_outline_ok _ _ _ _ _ Houtline)
        as (response & d & _ & Hst2 & _ & ->).
      pose proof (write_and_compile_guide_no_llm outline w2) as Hl3.
      destruct (write_and_compile_guide outline w2) as [[r3 w3] evs3] eqn:Hcompile.
      pose proof (write_and_compile_guide_keeps_outline _ _ _ _ _ Hcompile) as Hframe.
      intros [= -> <- <-]. simpl in Hl3.
      destruct (write_and_compile_guide_raises _ _ _ _ _ Hcompile)
        as [[[m ->] Hf3]|[m ->]].
      * split_and!; [done|by intros [[? [=]]|[[=]|[[=]|[=]]]]|].
        intros _. unfold file_events in *.
        rewrite !List.filter_app, Hl1, Hf1. simpl. rewrite Hl3, Hf3.
        split; [done|]. exists outline, d. split; [|done]. by rewrite Hframe, Hst2.
      * split_and!; [done|by intros [[? [=]]|[[=]|[[=]|[=]]]]|by intros [? [=]]].
    + intros [= <- <- <-].
      destruct (create_guide_outline_raises _ _ _ _ _ Houtline)
        as [(He & Hst2 & Hk2 & Hf2 & Hl2)|[[m ->] Hk2]].
      * split_and!.
        -- intros ->. by destruct He as [[? [=]]|[[=]|[[=]|[=]]]].
        -- intros _. rewrite !List.filter_app, Hl1, kickoffs_app, Hk1, Hk2,
             file_events_app, Hf1, Hf2, Hst2. done.
        -- intros [m ->]. by destruct He as [[? [=]]|[[=]|[[=]|[=]]]].
      * split_and!; [done|by intros [[? [=]]|[[=]|[[=]|[=]]]]|by intros [? [=]]].
  - intros [= <- <- <-]. apply get_user_input_raises in Hinput as ->.
    apply console_events_only in Hconsole as (Hk1 & Hf1 & Hl1). simpl in *.
    split_and!; [done|by intros [[? [=]]|[[=]|[[=]|[=]]]]|by intros [? [=]]].
Qed.

(** ** The entry point *)

Lemma audience_loop_no_banner lines w :
  EPrint (LF +:+ "=== Flow Complete ===") ∉ (audience_loop lines w).2.
Proof.
  induction lines as [|line lines IH]; simpl.
  - intros [[=]|[]%elem_of_nil]%elem_of_cons.
  - case_bool_decide.
    + intros [[=]|[]%elem_of_nil]%elem_of_cons.
    + destruct (audience_loop lines w) as [[r w'] evs]. simpl in *.
      intros [[=]|[[=]|?]%elem_of_cons]%elem_of_cons. done.
Qed.

Lemma loop_trace_no_banner audience authored completed content :
  EPrint (LF +:+ "=== Flow Complete ===")
  ∉ loop_trace audience authored completed content.
Proof.
  revert completed content.
  induction authored as [|[s raw] authored IH]; intros completed content; simpl.
  - apply not_elem_of_nil.
  - intros [[=]|[[=]|[[=]|?]%elem_of_cons]%elem_of_cons]%elem_of_cons.
    by eapply IH.
Qed.

(** No step of the flow prints the line that announces its completion. *)
Lemma flow_kickoff_no_banner w :
  EPrint (LF +:+ "=== Flow Complete ===") ∉ (flow_kickoff w).2.
Proof.
  rewrite flow_kickoff_run.
  assert (EPrint (LF +:+ "=== Flow Complete ===") ∉ (get_user_input w).2) as H1.
  { unfold get_user_input, bind, print, input, modify_state, ask_audience, get_state, ret.
    simpl. destruct (stdin w) as [|t lines]; simpl.
    - intros [[=]|[[=]|[]%elem_of_nil]%elem_of_cons]%elem_of_cons.
    - pose proof (audience_loop_no_banner lines
                    (mkWorld (set_topic t (self_state w)) lines (env w))) as Hloop.
      destruct (audience_loop lines _) as [[[[]|e] w1] evs1]; simpl in *.
      + intros [[=]|[[=]|[?|[[=]|[]%elem_of_nil]%elem_of_cons]%elem_of_app]%elem_of_cons]%elem_of_cons.
        done.
      + intros [[=]|[[=]|?]%elem_of_cons]%elem_of_cons. done. }
  assert (∀ state w1, EPrint (LF +:+ "=== Flow Complete ===")
                      ∉ (create_guide_outline state w1).2) as H2.
  { intros state w1. rewrite create_guide_outline_run. cbv zeta.
    destruct (llm_call _ _ _) as [[response|m] e1];
      [destruct (parse_outline response) as [[d o]|e];
       [destruct (os_makedirs _ _) as [[[]|m] e2];
        [destruct (write_file _ _ _) as [[[]|m] e3]|]|]|];
      simpl; intros Hin; repeat (apply elem_of_cons in Hin as [[=]|Hin]);
      by apply elem_of_nil in Hin. }
  assert (∀ outline w2, EPrint (LF +:+ "=== Flow Complete ===")
                        ∉ (write_and_compile_guide outline w2).2) as H3.
  { intros outline w2. rewrite write_and_compile_guide_run.
    destruct (write_sections _ _ _) as [[[c|e] w3] evs3] eqn:Hloop.
    - apply write_sections_returns in Hloop as (raws & _ & _ & _ & ->). cbv zeta.
      destruct (write_file _ _ _) as [[[]|m] e4]; simpl;
        intros [[=]|[Hin|Hin]%elem_of_app]%elem_of_cons;
        try (by eapply loop_trace_no_banner);
        repeat (apply elem_of_cons in Hin as [[=]|Hin]); by apply elem_of_nil in Hin.
    - apply write_sections_raises in Hloop as (? & ? & ? & ? & ? & _ & _ & _ & _ & ->).
      simpl. intros [[=]|[Hin|Hin]%elem_of_app]%elem_of_cons;
        try (by eapply loop_trace_no_banner);
        repeat (apply elem_of_cons in Hin as [[=]|Hin]); by apply elem_of_nil in Hin. }
  destruct (get_user_input w) as [[[state|e] w1] evs1]; [|done].
  specialize (H2 state w1).
  destruct (create_guide_outline state w1) as [[[outline|e] w2] evs2].
  - specialize (H3 outline w2).
    destruct (write_and_compile_guide outline w2) as [[r w3] evs3]. simpl in *.
    by intros [?|[?|?]%elem_of_app]%elem_of_app.
  - simpl in *. by intros [?|?]%elem_of_app.
Qed.

Lemma flow_kickoff_writes_guide w msg w' evs :
  flow_kickoff w = (Ok msg, w', evs) → ∃ doc, EWrite guide_path doc (Ok tt) ∈ evs.
Proof.
  rewrite flow_kickoff_run.
  destruct (get_user_input w) as [[[state|e] w1] evs1]; [|done].
  destruct (create_guide_outline state w1) as [[[outline|e] w2] evs2]; [|done].
  destruct (write_and_compile_guide outline w2) as [[r w3] evs3] eqn:Hcompile.
  intros [= -> <- <-].
  destruct (write_and_compile_guide_returns _ _ _ _ _ Hcompile) as (? & _ & _ & _ & Hfile).
  eexists. apply elem_of_app. right. apply elem_of_app. right.
  apply list_elem_of_In. eapply (proj1 (List.filter_In is_file_event _ evs3)).
  fold (file_events evs3). rewrite Hfile. by left.
Qed.

(** X16. The entry point prints the line that the flow is complete, and
    the two lines that say where the guide is, exactly when the flow has
    returned, after everything the flow did; then the guide has been
    written.  When the flow raises, the entry point raises the same
    exception with nothing printed after it. *)
Theorem kickoff_completion_banner w res w' evs :
  kickoff w = (res, w', evs) →
  (EPrint (LF +:+ "=== Flow Complete ===") ∈ evs ↔ res = Ok tt)
  ∧ (res = Ok tt →
       evs = (flow_kickoff w).2
             ++ [EPrint (LF +:+ "=== Flow Complete ===");
                 EPrint "Your comprehensive guide is ready in the output directory.";
                 EPrint "Open output/complete_guide.md to view it."]
       ∧ ∃ doc, EWrite guide_path doc (Ok tt) ∈ evs)
  ∧ (∀ e, res = Raise e →
       (flow_kickoff w).1.1 = Raise e ∧ evs = (flow_kickoff w).2 ∧ w' = (flow_kickoff w).1.2).
Proof.
  unfold kickoff, bind, print. simpl.
  pose proof (flow_kickoff_no_banner w) as Hno.
  destruct (flow_kickoff w) as [[[msg|e] w1] evs1] eqn:Hflow; simpl in *;
    intros [= <- <- <-].
  - split_and!; [|split; [done|]|done].
    + split; [done|]. intros _. apply elem_of_app. right. apply list_elem_of_here.
    + destruct (flow_kickoff_writes_guide _ _ _ _ Hflow) as [doc Hdoc].
      exists doc. apply elem_of_app. by left.
  - split_and!; [|done|].
    + split; [done|]. intros [=].
    + by intros e' [= <-].
Qed.

End MainFacts.

(** * Facts about [server.py] *)

Section ServerFacts.
Context `{F : Server.Framework}.

(** C10. For every request the handler builds the outline whose title is
    the fixed phrase followed by the topic, whose audience is the request's
    and whose introduction, sections and conclusion are empty.  It makes no
    call to the model and runs no crew.  When constructing the crew and
    reading its [run] attribute succeed, it appends the task of running
    [run] on that outline to the background tasks, without running it, and
    returns the acknowledgement with the status line, the topic and the
    audience; when either raises, it raises the HTTP exception with status
    500 and the message of what was raised, and schedules nothing. *)
Theorem create_guide_response request tasks e resp tasks' e' evs :
  Server.create_guide request tasks e = (resp, tasks', e', evs) →
  let outline :=
    {| title := "Comprehensive Guide to " +:+ Server.topic request;
       introduction := "";
       target_audience := Server.target_audience request;
       sections := [];
       conclusion := "" |} in
  List.filter is_llm_event evs = []
  ∧ kickoffs evs = []
  ∧ (∀ m e1, Server.ContentCrew e = (Fails m, e1) →
       resp = Server.HTTPException 500 m ∧ tasks' = tasks)
  ∧ (∀ c e1 m, Server.ContentCrew e = (Returns c, e1) → Server.crew_run c = Fails m →
       resp = Server.HTTPException 500 m ∧ tasks' = tasks)
  ∧ (∀ c e1 run, Server.ContentCrew e = (Returns c, e1) → Server.crew_run c = Returns run →
       resp = Server.Return {[ "status" := "Guide creation task started successfully";
                               "topic" := Server.topic request;
                               "target_audience" := Server.target_audience request ]}
       ∧ tasks' = tasks ++ [Server.mkTask run outline]
       ∧ evs = [EContentCrew (Returns tt); EAddTask outline]).
Proof.
  intros Hrun outline. unfold Server.create_guide in Hrun.
  destruct (Server.ContentCrew e) as [[c|m] e1].
  - destruct (Server.crew_run c) as [run|m] eqn:Hattr;
      injection Hrun as <- <- <- <-; split_and!; try done.
    + intros c' e1' m [= <- <-] Hc. congruence.
    + intros c' e1' run' [= <- <-] Hc.
      assert (run' = run) as -> by congruence. done.
    + intros c' e1' m' [= <- <-] Hc.
      assert (m' = m) as -> by congruence. done.
    + intros c' e1' run' [= <- <-] Hc. congruence.
  - injection Hrun as <- <- <- <-. split_and!; try done.
    by intros m' e1' [= <- <-].
Qed.



End ServerFacts.

(** * The scenario, run *)

(** The flow returns; it has run the crew twice and written the outline
    file and the guide. *)
Example scenario_flow :
  Sample.flow_run.1.1 = Ok "Guide creation completed successfully"
  ∧ length (kickoffs Sample.flow_run.2) = 2
  ∧ file_events Sample.flow_run.2
    = [EMakedirs "output" (Ok tt);
       EWrite outline_path Sample.outline_text (Ok tt);
       EWrite guide_path Sample.guide_text (Ok tt)]
  ∧ audience_level (self_state Sample.flow_run.1.2) = "beginner".
Proof. vm_compute. done. Qed.

(** The crew failing on the second of three sections: two runs, no file. *)
Example scenario_failing :
  Sample.failing_run.1.1 = Raise (CrewError "rate limit")
  ∧ length (kickoffs Sample.failing_run.2) = 2
  ∧ file_events Sample.failing_run.2 = [].
Proof. vm_compute. done. Qed.

(** One title twice: the guide holds the second text in both places. *)
Example scenario_twice :
  file_events Sample.twice_run.2
  = [EWrite guide_path
       ("# Home Gardening" +:+ LF2 +:+ "## Introduction" +:+ LF2 +:+ "Why grow your own." +:+ LF2
          +:+ LF2 +:+ "second text" +:+ LF2
          +:+ LF2 +:+ "second text" +:+ LF2
          +:+ "## Conclusion" +:+ LF2 +:+ "Happy growing." +:+ LF2)
       (Ok tt)].
Proof. vm_compute. done. Qed.

Lemma author_runs_once_per_section_witness :
  Sample.compile_run = (Sample.compile_run.1.1, Sample.compile_run.1.2, Sample.compile_run.2)
  ∧ (∀ m, Sample.compile_run.1.1 ≠ Raise (CrewError m))
  ∧ ∃ authored,
      authored.*1 = sections Sample.outline
      ∧ length (kickoffs Sample.compile_run.2) = length (sections Sample.outline)
      ∧ ∀ i section raw, authored !! i = Some (section, raw) →
          kickoffs Sample.compile_run.2 !! i
          = Some ({[ "section_title" := Section_title section;
                     "section_description" := Section_description section;
                     "audience_level" := "beginner";
                     "previous_sections" :=
                       render_context (Section_title <$> take i (sections Sample.outline))
                         (stored (take i authored) ∅);
                     "draft_content" := "" ]},
                  Ok raw).
Proof.
  assert (Sample.compile_run
          = (Sample.compile_run.1.1, Sample.compile_run.1.2, Sample.compile_run.2)) as Hrun
    by (vm_compute; reflexivity).
  assert (∀ m, Sample.compile_run.1.1 ≠ Raise (CrewError m)) as Hcrew
    by (intros m; vm_compute; discriminate).
  split_and!; [exact Hrun|exact Hcrew|].
  exact (author_runs_once_per_section (X:=Sample.external) Sample.outline
           (Sample.world Sample.ready [] Sample.script) _ _ _ Hrun Hcrew).
Defined.

Lemma context_of_each_run_witness :
  let second :=
    kickoff_inputs (mkSection "Tools" "What to buy first") "beginner"
      (previous_sections_text ["Getting Started"]
         {[ "Getting Started" := "## Getting Started" ]}) in
  Sample.compile_run = (Sample.compile_run.1.1, Sample.compile_run.1.2, Sample.compile_run.2)
  ∧ kickoffs Sample.compile_run.2 !! 1 = Some (second, Ok "## Tools")
  ∧ ∃ authored,
      authored.*1 = take 1 (sections Sample.outline)
      ∧ Ok <$> authored.*2 = (take 1 (kickoffs Sample.compile_run.2)).*2
      ∧ (∀ s, s ∈ take 1 (sections Sample.outline) →
           is_Some (last_authored authored (Section_title s)))
      ∧ second !! "previous_sections"
        = Some ("# Previously Written Sections" +:+ LF2
                  +:+ join (map (fun s => "## " +:+ Section_title s +:+ LF2
                                    +:+ default "" (last_authored authored (Section_title s))
                                    +:+ LF2)
                              (take 1 (sections Sample.outline)))).
Proof.
  intros second.
  assert (Sample.compile_run
          = (Sample.compile_run.1.1, Sample.compile_run.1.2, Sample.compile_run.2)) as Hrun
    by (vm_compute; reflexivity).
  assert (kickoffs Sample.compile_run.2 !! 1 = Some (second, Ok "## Tools")) as Hsecond
    by (vm_compute; reflexivity).
  split_and!; [exact Hrun|exact Hsecond|].
  exact (context_of_each_run (X:=Sample.external) Sample.outline
           (Sample.world Sample.ready [] Sample.script) _ _ _ 1 second (Ok "## Tools")
           Hrun Hsecond).
Defined.

Lemma final_document_witness :
  let content := sections_content (self_state Sample.compile_run.1.2) in
  let doc := document Sample.outline (fun s => default "" (content !! Section_title s)) in
  Sample.compile_run
  = (Ok "Guide creation completed successfully", Sample.compile_run.1.2, Sample.compile_run.2)
  ∧ file_events Sample.compile_run.2 = [EWrite guide_path doc (Ok tt)]
  ∧ (∀ s, s ∈ sections Sample.outline → is_Some (content !! Section_title s))
  ∧ (∀ content2,
       (∀ s, s ∈ sections Sample.outline →
          content2 !! Section_title s = content !! Section_title s) →
       compile_guide Sample.outline content2 = doc).
Proof.
  intros content doc.
  assert (Sample.compile_run
          = (Ok "Guide creation completed successfully", Sample.compile_run.1.2,
             Sample.compile_run.2)) as Hrun
    by (vm_compute; reflexivity).
  split; [exact Hrun|].
  exact (final_document (X:=Sample.external) Sample.outline
           (Sample.world Sample.ready [] Sample.script) _ _ _ Hrun).
Defined.

Lemma content_keys_invariant_witness :
  let w1 := Sample.input_run.1.2 in
  let w2 := Sample.outline_run.1.2 in
  Sample.input_run = (Ok (self_state w1), w1, Sample.input_run.2)
  ∧ Sample.outline_run = (Ok Sample.outline, w2, Sample.outline_run.2)
  ∧ sections_content (self_state w1) = ∅
  ∧ sections_content (self_state w2) = ∅
  ∧ (∀ todo completed w,
       rtc loop_step (sections Sample.outline, [], w2) (todo, completed, w) →
       guide_outline (self_state w) = Some Sample.outline
       ∧ dom (sections_content (self_state w))
         ⊆ list_to_set (Section_title <$> sections Sample.outline))
  ∧ (∀ completed w evs,
       write_sections (sections Sample.outline) [] w2 = (Ok completed, w, evs) →
       rtc loop_step (sections Sample.outline, [], w2) ([], completed, w)
       ∧ ∀ s, s ∈ sections Sample.outline →
           is_Some (sections_content (self_state w) !! Section_title s)).
Proof.
  intros w1 w2.
  assert (Sample.input_run = (Ok (self_state w1), w1, Sample.input_run.2)) as Hinput
    by (vm_compute; reflexivity).
  assert (Sample.outline_run = (Ok Sample.outline, w2, Sample.outline_run.2)) as Houtline
    by (vm_compute; reflexivity).
  split_and!; [exact Hinput|exact Houtline|..];
    apply (content_keys_invariant (X:=Sample.external) Sample.typed Sample.script
             _ _ _ _ _ _ Hinput Houtline).
Defined.

Lemma failed_run_writes_nothing_witness :
  let evs := Sample.failing_run.2 in
  Sample.failing_run = (Sample.failing_run.1.1, Sample.failing_run.1.2, evs)
  ∧ Sample.failing_run.1.1 = Raise (CrewError "rate limit")
  ∧ (∀ i inputs e, kickoffs evs !! i = Some (inputs, Raise e) →
       Sample.failing_run.1.1 = Raise e
       ∧ file_events evs = []
       ∧ length (kickoffs evs) = S i
       ∧ i < length (sections Sample.outline3))
  ∧ (file_events evs = []
     ∨ ∃ authored doc r tail,
         authored.*1 = sections Sample.outline3
         ∧ evs = EPrint "Writing guide sections and compiling..."
                 :: loop_trace "beginner" authored [] ∅
                 ++ EWrite guide_path doc r :: tail
         ∧ file_events evs = [EWrite guide_path doc r]
         ∧ kickoffs tail = []).
Proof.
  intros evs.
  assert (Sample.failing_run = (Sample.failing_run.1.1, Sample.failing_run.1.2, evs)) as Hrun
    by (vm_compute; reflexivity).
  split_and!; [exact Hrun|vm_compute; reflexivity|..];
    apply (failed_run_writes_nothing (X:=Sample.external) Sample.outline3
             (Sample.world Sample.ready [] Sample.failing_script) _ _ _ Hrun).
Defined.


Lemma outline_validation_witness :
  let w := @mkWorld Sample.external_bad_json Sample.ready [] Sample.script in
  let response := "Sure! Here is your outline." in
  let res := Sample.bad_json_run.1.1 in
  let w' := Sample.bad_json_run.1.2 in
  let evs := Sample.bad_json_run.2 in
  @llm_call Sample.external_bad_json "openai/gpt-4o-mini" (outline_messages Sample.ready)
    (env w) = (Returns response, Sample.script)
  ∧ Sample.bad_json_run = (res, w', evs)
  ∧ res = Raise JSONDecodeError
  ∧ ((∃ e, res = Raise e ∧ schema_validation_failure e)
       ↔ ¬ ∃ d o, @json_loads Sample.external_bad_json response = Some d ∧ outline_shape d o)
  ∧ (∀ e, res = Raise e → schema_validation_failure e →
       self_state w' = self_state w ∧ file_events evs = [])
  ∧ (∀ d o, @json_loads Sample.external_bad_json response = Some d → outline_shape d o →
       guide_outline (self_state w') = Some o
       ∧ (res = Ok o ∨ ∃ m, res = Raise (FileError m)))
  ∧ (∀ o, outline_shape (GuideOutline_dump o) o).
Proof.
  intros w response res w' evs.
  assert (@llm_call Sample.external_bad_json "openai/gpt-4o-mini"
            (outline_messages Sample.ready) (env w) = (Returns response, Sample.script))
    as Hllm by reflexivity.
  assert (Sample.bad_json_run = (res, w', evs)) as Hrun by (vm_compute; reflexivity).
  split_and!; [exact Hllm|exact Hrun|vm_compute; reflexivity|..];
    apply (outline_validation (X:=Sample.external_bad_json) Sample.ready w response
             Sample.script Hllm res w' evs Hrun).
Defined.

Lemma audience_collection_witness :
  let w := @start_world Sample.external Sample.typed Sample.script in
  stdin w = "Home Gardening" :: ["expert"; ""] ++ "BEGINNER" :: []
  ∧ Forall (fun a => lower a ∉ audience_levels) ["expert"; ""]
  ∧ lower "BEGINNER" ∈ audience_levels
  ∧ ∃ st evs,
      get_user_input w = (Ok st, mkWorld st [] (env w), evs)
      ∧ st = set_audience_level (lower "BEGINNER") (set_topic "Home Gardening" (self_state w))
      ∧ evs = EPrint (LF +:+ "=== Create Your Comprehensive Guide ===" +:+ LF)
              :: EInput "What topic would you like to create a guide for? "
                   (Ok "Home Gardening")
              :: rejections ["expert"; ""]
              ++ [EInput audience_prompt (Ok "BEGINNER");
                  EPrint (LF +:+ "Creating a guide on " +:+ "Home Gardening" +:+ " for "
                            +:+ lower "BEGINNER" +:+ " audience..." +:+ LF)]
      ∧ List.filter is_audience_prompt evs
        = map (fun a => EInput audience_prompt (Ok a)) (["expert"; ""] ++ ["BEGINNER"]).
Proof.
  intros w.
  assert (stdin w = "Home Gardening" :: ["expert"; ""] ++ "BEGINNER" :: []) as Hin
    by reflexivity.
  assert (Forall (fun a => lower a ∉ audience_levels) ["expert"; ""]) as Hrej
    by (repeat apply Forall_cons_2; [compute_done|compute_done|apply Forall_nil_2]).
  assert (lower "BEGINNER" ∈ audience_levels) as Hv by compute_done.
  split_and!; [exact Hin|exact Hrej|exact Hv|].
  exact (audience_collection (X:=Sample.external) w "Home Gardening" ["expert"; ""]
           "BEGINNER" [] Hin Hrej Hv).
Defined.

Lemma duplicate_titles_overwrite_witness :
  let si := mkSection "Tools" "Hand tools" in
  let sj := mkSection "Tools" "Power tools" in
  let evs := Sample.twice_run.2 in
  Sample.twice_run
  = (Ok "Guide creation completed successfully", Sample.twice_run.1.2, evs)
  ∧ sections Sample.outline_twice !! 0 = Some si
  ∧ sections Sample.outline_twice !! 1 = Some sj
  ∧ 0 < 1
  ∧ Section_title si = Section_title sj
  ∧ ∃ authored rawi rawj,
      authored.*1 = sections Sample.outline_twice
      ∧ Ok <$> authored.*2 = (kickoffs evs).*2
      ∧ authored !! 0 = Some (si, rawi)
      ∧ authored !! 1 = Some (sj, rawj)
      ∧ stored (take 1 authored) ∅ !! Section_title si = Some rawi
      ∧ stored (take 2 authored) ∅ !! Section_title si = Some rawj
      ∧ file_events evs
        = [EWrite guide_path
             (document Sample.outline_twice
                (fun s => default "" (last_authored authored (Section_title s))))
             (Ok tt)]
      ∧ ((∀ k sk, 1 < k → sections Sample.outline_twice !! k = Some sk →
            Section_title sk ≠ Section_title sj) →
         last_authored authored (Section_title si) = Some rawj
         ∧ last_authored authored (Section_title sj) = Some rawj).
Proof.
  intros si sj evs.
  assert (Sample.twice_run
          = (Ok "Guide creation completed successfully", Sample.twice_run.1.2, evs)) as Hrun
    by (vm_compute; reflexivity).
  assert (sections Sample.outline_twice !! 0 = Some si) as Hi by reflexivity.
  assert (sections Sample.outline_twice !! 1 = Some sj) as Hj by reflexivity.
  assert (0 < 1) as Hlt by lia.
  assert (Section_title si = Section_title sj) as Htitle by reflexivity.
  split_and!; [exact Hrun|exact Hi|exact Hj|exact Hlt|exact Htitle|].
  exact (duplicate_titles_overwrite (X:=Sample.external) Sample.outline_twice
           (Sample.world Sample.ready [] Sample.script_twice) _ _ _ 0 1 si sj
           Hrun Hi Hj Hlt Htitle).
Defined.

Lemma create_guide_response_witness :
  let outline :=
    {| title := "Comprehensive Guide to " +:+ "Home Gardening";
       introduction := "";
       target_audience := "beginner";
       sections := [];
       conclusion := "" |} in
  let resp := Sample.handler_run.1.1.1 in
  let tasks' := Sample.handler_run.1.1.2 in
  let evs := Sample.handler_run.2 in
  Sample.handler_run = (resp, tasks', Sample.handler_run.1.2, evs)
  ∧ resp = Server.Return {[ "status" := "Guide creation task started successfully";
                            "topic" := "Home Gardening";
                            "target_audience" := "beginner" ]}
  ∧ List.filter is_llm_event evs = []
  ∧ kickoffs evs = []
  ∧ (∀ m e1, @Server.ContentCrew _ Sample.framework Sample.script = (Fails m, e1) →
       resp = Server.HTTPException 500 m ∧ tasks' = [])
  ∧ (∀ c e1 m, @Server.ContentCrew _ Sample.framework Sample.script = (Returns c, e1) →
       @Server.crew_run _ Sample.framework c = Fails m →
       resp = Server.HTTPException 500 m ∧ tasks' = [])
  ∧ (∀ c e1 run, @Server.ContentCrew _ Sample.framework Sample.script = (Returns c, e1) →
       @Server.crew_run _ Sample.framework c = Returns run →
       resp = Server.Return {[ "status" := "Guide creation task started successfully";
                               "topic" := "Home Gardening";
                               "target_audience" := "beginner" ]}
       ∧ tasks' = [] ++ [Server.mkTask run outline]
       ∧ evs = [EContentCrew (Returns tt); EAddTask outline]).
Proof.
  intros outline resp tasks' evs.
  assert (Sample.handler_run = (resp, tasks', Sample.handler_run.1.2, evs)) as Hrun
    by (vm_compute; reflexivity).
  split_and!; [exact Hrun|vm_compute; reflexivity|..];
    apply (create_guide_response (F:=Sample.framework) Sample.request [] Sample.script
             _ _ _ _ Hrun).
Defined.

(** * Further runs of the scenario *)

Lemma get_user_input_returns_witness :
  let w := @start_world Sample.external Sample.typed Sample.script in
  let w' := Sample.input_run.1.2 in
  Sample.input_run = (Ok (self_state w'), w', Sample.input_run.2)
  ∧ ∃ t rejected v,
      stdin w = t :: rejected ++ v :: stdin w'
      ∧ Forall (fun a => lower a ∉ audience_levels) rejected
      ∧ lower v ∈ audience_levels
      ∧ self_state w' = set_audience_level (lower v) (set_topic t (self_state w))
      ∧ audience_level (self_state w') ∈ audience_levels
      ∧ self_state w' = self_state w'
      ∧ env w' = env w.
Proof.
  intros w w'.
  assert (Sample.input_run = (Ok (self_state w'), w', Sample.input_run.2)) as Hrun
    by reflexivity.
  split; [exact Hrun|].
  exact (get_user_input_returns (X:=Sample.external) w _ _ _ Hrun).
Defined.

Lemma get_user_input_eof_witness :
  Forall (fun a => lower a ∉ audience_levels) (tail (stdin Sample.eof_world))
  ∧ ∃ evs,
      get_user_input Sample.eof_world
      = (Raise EOFError,
         mkWorld match stdin Sample.eof_world with
                 | [] => self_state Sample.eof_world
                 | t :: _ => set_topic t (self_state Sample.eof_world)
                 end [] (env Sample.eof_world),
         evs)
      ∧ List.filter is_audience_prompt evs
        = match stdin Sample.eof_world with
          | [] => []
          | _ :: answers =>
              map (fun a => EInput audience_prompt (Ok a)) answers
              ++ [EInput audience_prompt (Raise EOFError)]
          end.
Proof.
  assert (Forall (fun a => lower a ∉ audience_levels) (tail (stdin Sample.eof_world)))
    as Hrej by (apply Forall_cons_2; [compute_done|apply Forall_nil_2]).
  split; [exact Hrej|].
  exact (get_user_input_eof (X:=Sample.external) Sample.eof_world Hrej).
Defined.

Lemma outline_single_model_call_witness :
  let w := Sample.input_run.1.2 in
  let res := Sample.outline_run.1.1 in
  let w' := Sample.outline_run.1.2 in
  let evs := Sample.outline_run.2 in
  Sample.outline_run = (res, w', evs)
  ∧ ∃ r,
      List.filter is_llm_event evs
      = [ELLMCall "openai/gpt-4o-mini" (outline_messages (self_state w)) r]
      ∧ (∀ m, r = Raise (LLMCallError m) →
           res = Raise (LLMCallError m)
           ∧ self_state w' = self_state w
           ∧ stdin w' = stdin w
           ∧ file_events evs = [])
      ∧ (∀ response, r = Ok response → ∀ m, res ≠ Raise (LLMCallError m)).
Proof.
  intros w res w' evs.
  assert (Sample.outline_run = (res, w', evs)) as Hrun by reflexivity.
  split; [exact Hrun|].
  exact (outline_single_model_call (X:=Sample.external) (self_state w) w _ _ _ Hrun).
Defined.

Lemma outline_stored_before_files_witness :
  let w := @mkWorld Sample.external_disk_full Sample.ready [] Sample.script in
  let w' := Sample.outline_disk_full_run.1.2 in
  let evs := Sample.outline_disk_full_run.2 in
  Sample.outline_disk_full_run = (Raise (FileError "disk full"), w', evs)
  ∧ ∃ response outline_dict outline,
      List.filter is_llm_event evs
      = [ELLMCall "openai/gpt-4o-mini" (outline_messages Sample.ready) (Ok response)]
      ∧ @parse_outline Sample.external_disk_full response = Ok (outline_dict, outline)
      ∧ self_state w' = set_guide_outline outline (self_state w)
      ∧ (file_events evs = [EMakedirs "output" (Raise (FileError "disk full"))]
         ∨ file_events evs
           = [EMakedirs "output" (Ok tt);
              EWrite outline_path (@json_dumps Sample.external_disk_full outline_dict 2)
                (Raise (FileError "disk full"))]).
Proof.
  intros w w' evs.
  assert (Sample.outline_disk_full_run = (Raise (FileError "disk full"), w', evs)) as Hrun
    by reflexivity.
  split; [exact Hrun|].
  exact (outline_stored_before_files (X:=Sample.external_disk_full) Sample.ready w _ _ _
           Hrun).
Defined.

Lemma outline_field_required_witness :
  let d : gmap string json := {[ "title" := JStr "Home Gardening" ]} in
  ((∃ k, k ∈ ["title"; "introduction"; "target_audience"; "conclusion"]
         ∧ ∀ text, d !! k ≠ Some (JStr text))
   ∨ (∀ items, d !! "sections" ≠ Some (JArr items)))
  ∧ GuideOutline_init (JObj d) = Raise ValidationError.
Proof.
  intros d.
  assert ((∃ k, k ∈ ["title"; "introduction"; "target_audience"; "conclusion"]
                ∧ ∀ text, d !! k ≠ Some (JStr text))
          ∨ (∀ items, d !! "sections" ≠ Some (JArr items))) as Hbad
    by (right; intros items; vm_compute; discriminate).
  split; [exact Hbad|].
  exact (outline_field_required d Hbad).
Defined.

Lemma outline_bad_section_rejected_witness :
  let items := [Section_dump (mkSection "Tools" "What to buy first"); JStr "Watering"] in
  let d : gmap string json :=
    <["sections" := JArr items]> (match GuideOutline_dump Sample.outline with
                                  | JObj d => d
                                  | _ => ∅
                                  end) in
  d !! "sections" = Some (JArr items)
  ∧ JStr "Watering" ∈ items
  ∧ (∀ s, ¬ section_shape (JStr "Watering") s)
  ∧ GuideOutline_init (JObj d) = Raise ValidationError.
Proof.
  intros items d.
  assert (d !! "sections" = Some (JArr items)) as Hs by reflexivity.
  assert (JStr "Watering" ∈ items) as Hv
    by (apply list_elem_of_further, list_elem_of_here).
  assert (∀ s, ¬ section_shape (JStr "Watering") s) as Hno
    by (intros s (d' & Hd & _); discriminate Hd).
  split_and!; [exact Hs|exact Hv|exact Hno|].
  exact (outline_bad_section_rejected d items (JStr "Watering") Hs Hv Hno).
Defined.

Lemma outline_extra_member_ignored_witness :
  let d : gmap string json :=
    match GuideOutline_dump Sample.outline with
    | JObj d => d
    | _ => ∅
    end in
  ("notes" ∉ ["title"; "introduction"; "target_audience"; "sections"; "conclusion"])
  ∧ GuideOutline_init (JObj (<["notes" := JInt 3]> d)) = GuideOutline_init (JObj d).
Proof.
  intros d.
  assert ("notes" ∉ ["title"; "introduction"; "target_audience"; "sections"; "conclusion"])
    as Hk by compute_done.
  split; [exact Hk|].
  exact (outline_extra_member_ignored d "notes" (JInt 3) Hk).
Defined.

Lemma compile_step_frame_witness :
  let w := Sample.world Sample.ready [] Sample.failing_script in
  let res := Sample.failing_run.1.1 in
  let w' := Sample.failing_run.1.2 in
  Sample.failing_run = (res, w', Sample.failing_run.2)
  ∧ topic (self_state w') = topic (self_state w)
  ∧ audience_level (self_state w') = audience_level (self_state w)
  ∧ guide_outline (self_state w') = guide_outline (self_state w)
  ∧ stdin w' = stdin w
  ∧ (∀ k, is_Some (sections_content (self_state w) !! k) →
          is_Some (sections_content (self_state w') !! k))
  ∧ (∀ k, k ∉ Section_title <$> sections Sample.outline3 →
          sections_content (self_state w') !! k = sections_content (self_state w) !! k).
Proof.
  intros w res w'.
  assert (Sample.failing_run = (res, w', Sample.failing_run.2)) as Hrun
    by reflexivity.
  split; [exact Hrun|].
  exact (compile_step_frame (X:=Sample.external) Sample.outline3 w _ _ _ Hrun).
Defined.

Lemma compile_empty_outline_witness :
  let res := Sample.empty_run.1.1 in
  let w' := Sample.empty_run.1.2 in
  let evs := Sample.empty_run.2 in
  sections Sample.outline_empty = []
  ∧ Sample.empty_run = (res, w', evs)
  ∧ kickoffs evs = []
  ∧ self_state w' = self_state (Sample.world Sample.ready [] Sample.script)
  ∧ ∃ r,
      file_events evs
      = [EWrite guide_path
           ("# " +:+ title Sample.outline_empty +:+ LF2
              +:+ "## Introduction" +:+ LF2 +:+ introduction Sample.outline_empty +:+ LF2
              +:+ "## Conclusion" +:+ LF2 +:+ conclusion Sample.outline_empty +:+ LF2)
           r]
      ∧ (r = Ok tt → res = Ok "Guide creation completed successfully").
Proof.
  intros res w' evs.
  assert (sections Sample.outline_empty = []) as Hempty by reflexivity.
  assert (Sample.empty_run = (res, w', evs)) as Hrun by reflexivity.
  split_and!; [exact Hempty|exact Hrun|..];
    apply (compile_empty_outline (X:=Sample.external) Sample.outline_empty
             (Sample.world Sample.ready [] Sample.script) _ _ _ Hempty Hrun).
Defined.

Lemma distinct_titles_document_witness :
  let w' := Sample.compile_run.1.2 in
  let evs := Sample.compile_run.2 in
  Sample.compile_run = (Ok "Guide creation completed successfully", w', evs)
  ∧ NoDup (Section_title <$> sections Sample.outline)
  ∧ ∃ raws,
      Ok <$> raws = (kickoffs evs).*2
      ∧ length raws = length (sections Sample.outline)
      ∧ file_events evs
        = [EWrite guide_path
             ("# " +:+ title Sample.outline +:+ LF2
                +:+ "## Introduction" +:+ LF2 +:+ introduction Sample.outline +:+ LF2
                +:+ join (map (fun raw => LF2 +:+ raw +:+ LF2) raws)
                +:+ "## Conclusion" +:+ LF2 +:+ conclusion Sample.outline +:+ LF2)
             (Ok tt)]
      ∧ ∀ i s raw, sections Sample.outline !! i = Some s → raws !! i = Some raw →
          sections_content (self_state w') !! Section_title s = Some raw.
Proof.
  intros w' evs.
  assert (Sample.compile_run = (Ok "Guide creation completed successfully", w', evs))
    as Hrun by reflexivity.
  assert (NoDup (Section_title <$> sections Sample.outline)) as Hnd by compute_done.
  split_and!; [exact Hrun|exact Hnd|].
  exact (distinct_titles_document (X:=Sample.external) Sample.outline
           (Sample.world Sample.ready [] Sample.script) _ _ _ Hrun Hnd).
Defined.

Lemma guide_write_failure_witness :
  let w := @mkWorld Sample.external_disk_full Sample.ready [] Sample.script in
  let w' := Sample.compile_disk_full_run.1.2 in
  let evs := Sample.compile_disk_full_run.2 in
  let failed :=
    EWrite guide_path (compile_guide Sample.outline (sections_content (self_state w')))
      (Raise (FileError "disk full")) in
  Sample.compile_disk_full_run = (Raise (FileError "disk full"), w', evs)
  ∧ ∃ authored,
      authored.*1 = sections Sample.outline
      ∧ Ok <$> authored.*2 = (kickoffs evs).*2
      ∧ sections_content (self_state w') = stored authored (sections_content (self_state w))
      ∧ file_events evs = [failed]
      ∧ last evs = Some failed.
Proof.
  intros w w' evs failed.
  assert (Sample.compile_disk_full_run = (Raise (FileError "disk full"), w', evs)) as Hrun
    by reflexivity.
  split; [exact Hrun|].
  exact (guide_write_failure (X:=Sample.external_disk_full) Sample.outline w _ _ _ Hrun).
Defined.

Lemma context_grows_witness :
  let first :=
    kickoff_inputs (mkSection "Getting Started" "Choosing a plot") "beginner"
      "No previous sections written yet." in
  let second :=
    kickoff_inputs (mkSection "Tools" "What to buy first") "beginner"
      (previous_sections_text ["Getting Started"]
         {[ "Getting Started" := "## Getting Started" ]}) in
  let evs := Sample.compile_run.2 in
  Sample.compile_run = (Sample.compile_run.1.1, Sample.compile_run.1.2, evs)
  ∧ NoDup (Section_title <$> sections Sample.outline)
  ∧ kickoffs evs !! 0 = Some (first, Ok "## Getting Started")
  ∧ kickoffs evs !! 1 = Some (second, Ok "## Tools")
  ∧ ∃ s ctx,
      sections Sample.outline !! 0 = Some s
      ∧ first !! "previous_sections" = Some ctx
      ∧ second !! "previous_sections"
        = Some (("# Previously Written Sections" +:+ LF2)
                  +:+ "## " +:+ Section_title s +:+ LF2 +:+ "## Getting Started" +:+ LF2).
Proof.
  intros first second evs.
  assert (Sample.compile_run = (Sample.compile_run.1.1, Sample.compile_run.1.2, evs))
    as Hrun by reflexivity.
  assert (NoDup (Section_title <$> sections Sample.outline)) as Hnd by compute_done.
  assert (kickoffs evs !! 0 = Some (first, Ok "## Getting Started")) as H0
    by reflexivity.
  assert (kickoffs evs !! 1 = Some (second, Ok "## Tools")) as H1
    by reflexivity.
  split_and!; [exact Hrun|exact Hnd|exact H0|exact H1|].
  exact (context_grows (X:=Sample.external) Sample.outline
           (Sample.world Sample.ready [] Sample.script) _ _ _ 0 first "## Getting Started"
           second (Ok "## Tools") Hrun Hnd H0 H1).
Defined.

Lemma flow_returns_witness :
  let w := @start_world Sample.external Sample.typed Sample.script in
  let w' := Sample.flow_run.1.2 in
  let evs := Sample.flow_run.2 in
  Sample.flow_run = (Ok "Guide creation completed successfully", w', evs)
  ∧ ∃ t rejected v response outline_dict outline,
      stdin w = t :: rejected ++ v :: stdin w'
      ∧ lower v ∈ audience_levels
      ∧ topic (self_state w') = t
      ∧ audience_level (self_state w') = lower v
      ∧ guide_outline (self_state w') = Some outline
      ∧ @parse_outline Sample.external response = Ok (outline_dict, outline)
      ∧ List.filter is_llm_event evs
        = [ELLMCall "openai/gpt-4o-mini"
             (outline_messages (set_audience_level (lower v) (set_topic t (self_state w))))
             (Ok response)]
      ∧ length (kickoffs evs) = length (sections outline)
      ∧ (∀ i inputs r, kickoffs evs !! i = Some (inputs, r) →
           inputs !! "audience_level" = Some (lower v))
      ∧ file_events evs
        = [EMakedirs "output" (Ok tt);
           EWrite outline_path (@json_dumps Sample.external outline_dict 2) (Ok tt);
           EWrite guide_path (compile_guide outline (sections_content (self_state w')))
             (Ok tt)].
Proof.
  intros w w' evs.
  assert (Sample.flow_run = (Ok "Guide creation completed successfully", w', evs)) as Hrun
    by reflexivity.
  split; [exact Hrun|].
  exact (flow_returns (X:=Sample.external) w _ _ _ Hrun).
Defined.

Lemma flow_failure_by_stage_witness :
  let w := @start_world Sample.external Sample.typed [Fails "rate limit"] in
  let e := CrewError "rate limit" in
  let w' := Sample.flow_failing_run.1.2 in
  let evs := Sample.flow_failing_run.2 in
  Sample.flow_failing_run = (Raise e, w', evs)
  ∧ (e = EOFError →
       List.filter is_llm_event evs = [] ∧ kickoffs evs = [] ∧ file_events evs = [])
  ∧ ((∃ m, e = LLMCallError m) ∨ schema_validation_failure e →
       length (List.filter is_llm_event evs) = 1
       ∧ kickoffs evs = [] ∧ file_events evs = []
       ∧ guide_outline (self_state w') = guide_outline (self_state w))
  ∧ ((∃ m, e = CrewError m) →
       length (List.filter is_llm_event evs) = 1
       ∧ ∃ outline outline_dict,
           guide_outline (self_state w') = Some outline
           ∧ file_events evs
             = [EMakedirs "output" (Ok tt);
                EWrite outline_path (@json_dumps Sample.external outline_dict 2) (Ok tt)]).
Proof.
  intros w e w' evs.
  assert (Sample.flow_failing_run = (Raise e, w', evs)) as Hrun
    by reflexivity.
  split; [exact Hrun|].
  exact (flow_failure_by_stage (X:=Sample.external) w _ _ _ Hrun).
Defined.

Lemma kickoff_completion_banner_witness :
  let w := @start_world Sample.external Sample.typed Sample.script in
  let res := Sample.kickoff_run.1.1 in
  let w' := Sample.kickoff_run.1.2 in
  let evs := Sample.kickoff_run.2 in
  Sample.kickoff_run = (res, w', evs)
  ∧ res = Ok tt
  ∧ (EPrint (LF +:+ "=== Flow Complete ===") ∈ evs ↔ res = Ok tt)
  ∧ (res = Ok tt →
       evs = (flow_kickoff w).2
             ++ [EPrint (LF +:+ "=== Flow Complete ===");
                 EPrint "Your comprehensive guide is ready in the output directory.";
                 EPrint "Open output/complete_guide.md to view it."]
       ∧ ∃ doc, EWrite guide_path doc (Ok tt) ∈ evs)
  ∧ (∀ e, res = Raise e →
       (flow_kickoff w).1.1 = Raise e ∧ evs = (flow_kickoff w).2
       ∧ w' = (flow_kickoff w).1.2).
Proof.
  intros w res w' evs.
  assert (Sample.kickoff_run = (res, w', evs)) as Hrun by reflexivity.
  split_and!; [exact Hrun|vm_compute; reflexivity|..];
    apply (kickoff_completion_banner (X:=Sample.external) w _ _ _ Hrun).
Defined.

